(** * GossipBot: the TCP broadcast relay of [index.js]

    A shallow embedding of the relay core of [index.js] (the listener
    registry, [netServer.broadcast], the socket event handlers, the
    authenticated command handlers and the open/close life cycle of the
    listener), together with the properties of it that the specification
    states.

    The program is single-threaded and event driven: every handler runs to
    completion before the next event is looked at.  A handler is therefore a
    function from states to states, and the program is the transition system
    [step] over the events the runtime can deliver. *)

From Stdlib Require Import List String Ascii Bool Arith Lia.
From Stdlib Require Import DecimalString DecimalNat.
Import ListNotations.
Local Open Scope list_scope.
Local Open Scope string_scope.

(** ** JavaScript primitives used by the program *)

Module Js.

(** The line feed, ["\n"]. *)
Definition LF : ascii := "010"%char.
Definition nl : string := String LF EmptyString.

(** [s.split("\n")]: the pieces of [s] between consecutive line feeds.
    The result is never empty: [""] splits into [[""]]. *)
Fixpoint split_nl (s : string) : list string :=
  match s with
  | EmptyString => [EmptyString]
  | String c r =>
      if Ascii.eqb c LF then EmptyString :: split_nl r
      else match split_nl r with
           | l :: ls => String c l :: ls
           | [] => [String c EmptyString]
           end
  end.

(** [a.join(sep)]. *)
Fixpoint join (sep : string) (a : list string) : string :=
  match a with
  | [] => EmptyString
  | [x] => x
  | x :: r => x ++ sep ++ join sep r
  end.

(** Number of line feeds of a string. *)
Fixpoint count_nl (s : string) : nat :=
  match s with
  | EmptyString => 0
  | String c r => (if Ascii.eqb c LF then 1 else 0) + count_nl r
  end.

(** Does the string contain a line feed? *)
Fixpoint has_nl (s : string) : bool :=
  match s with
  | EmptyString => false
  | String c r => Ascii.eqb c LF || has_nl r
  end.

(** [`${n}`] for a non-negative integer [n]: its decimal digits. *)
Definition of_nat (n : nat) : string :=
  NilEmpty.string_of_uint (Nat.to_uint n).

(** [a.forEach(f)], where the callback [f] acts on a state of type [S]. *)
Definition forEach {A S : Type} (a : list A) (f : A -> S -> S) (s : S) : S :=
  fold_left (fun acc x => f x acc) a s.

(** [a.push(x)]. *)
Definition push {A : Type} (x : A) (a : list A) : list A := (a ++ [x])%list.

(** [a.includes(x)] on an array of strings. *)
Fixpoint includes (a : list string) (x : string) : bool :=
  match a with
  | [] => false
  | y :: r => String.eqb y x || includes r x
  end.

End Js.

(** ** Broadcast payloads *)

(** [broadcast] dispatches on [typeof message]: a string, an object with the
    fields [channel], [user] and [text], or anything else. *)
Inductive Payload : Type :=
| RawText (text : string)
| Structured (channel user text : string)
| OtherValue.

(** The array [send] that [broadcast] builds from its argument. *)
Definition send_of (message : Payload) : list string :=
  match message with
  | RawText text => Js.split_nl text
  | Structured channel user text =>
      Js.forEach (Js.split_nl text)
        (fun line send => Js.push (channel ++ "," ++ user ++ "," ++ line) send)
        []
  | OtherValue => []
  end.

(** ** Data model *)

(** [socket.status], one of the strings ["running"] and ["paused"]. *)
Inductive SocketStatus : Type := running | paused.

Definition SocketStatus_eqb (a b : SocketStatus) : bool :=
  match a, b with
  | running, running | paused, paused => true
  | _, _ => false
  end.

Definition SocketStatus_str (st : SocketStatus) : string :=
  match st with running => "running" | paused => "paused" end.

(** An accepted socket, with what the program did to its transport:
    [written] is the data passed to [write], oldest first, and [ended] tells
    whether [end] was called. *)
Record Socket : Type := mkSocket {
  nickname : string;
  status : SocketStatus;
  written : list string;
  ended : bool
}.

Definition set_status (st : SocketStatus) (k : Socket) : Socket :=
  mkSocket (nickname k) st (written k) (ended k).

(** [socket.write(data)] *)
Definition write (data : string) (k : Socket) : Socket :=
  mkSocket (nickname k) (status k) (written k ++ [data])%list (ended k).

(** [socket.end()] *)
Definition end_ (k : Socket) : Socket :=
  mkSocket (nickname k) (status k) (written k) true.

(** The object [listeners], keyed by nickname.  Its properties are kept in
    insertion order, the order in which [Object.keys] lists them.  A socket
    object is referenced from [listeners[socket.nickname]] only, and a
    nickname is never given twice ([connection_is_fresh] below), so the
    record is stored in place. *)
Definition Registry : Type := list (string * Socket).

(** [Object.keys(listeners)] *)
Definition keys (l : Registry) : list string := map fst l.

(** [listeners[name]] *)
Fixpoint get (name : string) (l : Registry) : option Socket :=
  match l with
  | [] => None
  | (n, k) :: r => if String.eqb n name then Some k else get name r
  end.

(** [listeners[name] = k] *)
Fixpoint set (name : string) (k : Socket) (l : Registry) : Registry :=
  match l with
  | [] => [(name, k)]
  | (n, k') :: r =>
      if String.eqb n name then (n, k) :: r else (n, k') :: set name k r
  end.

(** [delete listeners[name]] *)
Fixpoint delete (name : string) (l : Registry) : Registry :=
  match l with
  | [] => []
  | (n, k) :: r =>
      if String.eqb n name then delete name r else (n, k) :: delete name r
  end.

(** A method call that mutates the object [listeners[name]]. *)
Fixpoint update (name : string) (f : Socket -> Socket) (l : Registry) : Registry :=
  match l with
  | [] => []
  | (n, k) :: r =>
      if String.eqb n name then (n, f k) :: r else (n, k) :: update name f r
  end.

(** [listeners[name].status === st] *)
Definition status_is (name : string) (st : SocketStatus) (l : Registry) : bool :=
  match get name l with
  | Some k => SocketStatus_eqb (status k) st
  | None => false
  end.

(** [netServer.status]: unset until the first ['listening'] callback runs,
    then one of the three strings the program assigns. *)
Inductive ServerStatus : Type := undefined | listening | closing | closed.

Definition ServerStatus_str (st : ServerStatus) : string :=
  match st with
  | undefined => "undefined"
  | listening => "listening"
  | closing => "closing"
  | closed => "closed"
  end.

(** A chat message as the handlers use it. *)
Record Message : Type := mkMessage {
  msg_user : string;
  msg_channel : string;
  msg_text : string
}.

(** A line of [console.log], with the colour the program asks for. *)
Inductive LogLine : Type :=
| Plain (line : string)
| Red (line : string)
| Yellow (line : string).

(** The callbacks the program passes to [netServer.listen]: the one of the
    start-up and the one of the open-server handler. *)
Inductive ListenCallback : Type :=
| StartupListen
| OpenListen (message : Message).

(** The whole state: the program's variables, what it has output so far, and
    the part of the listener's runtime state the program depends on. *)
Record State : Type := mkState {
  listenerPort : string;                  (* process.env.LISTENERPORT *)
  listenerID : nat;
  listeners : Registry;
  server_status : ServerStatus;           (* netServer.status *)
  server_port : option string;            (* netServer.port *)
  authenticatedUsers : list string;       (* controller.authenticatedUsers *)
  console : list LogLine;                 (* console.log, oldest first *)
  replies : list (Message * string);      (* bot.reply, oldest first *)
  conversations : list Message;           (* password conversations begun *)
  users_file : list string;               (* lines appended to .users *)
  accepting : bool;                       (* the listener is bound *)
  listen_callbacks : list ListenCallback; (* waiting for 'listening' *)
  close_callbacks : list Message          (* waiting for 'close' *)
}.

(** Assignment to one variable of the state. *)
Definition set_listenerID (v : nat) (s : State) : State :=
  mkState (listenerPort s) v (listeners s) (server_status s) (server_port s) (authenticatedUsers s) (console s) (replies s) (conversations s) (users_file s) (accepting s) (listen_callbacks s) (close_callbacks s).

Definition set_listeners (v : Registry) (s : State) : State :=
  mkState (listenerPort s) (listenerID s) v (server_status s) (server_port s) (authenticatedUsers s) (console s) (replies s) (conversations s) (users_file s) (accepting s) (listen_callbacks s) (close_callbacks s).

Definition set_server_status (v : ServerStatus) (s : State) : State :=
  mkState (listenerPort s) (listenerID s) (listeners s) v (server_port s) (authenticatedUsers s) (console s) (replies s) (conversations s) (users_file s) (accepting s) (listen_callbacks s) (close_callbacks s).

Definition set_server_port (v : option string) (s : State) : State :=
  mkState (listenerPort s) (listenerID s) (listeners s) (server_status s) v (authenticatedUsers s) (console s) (replies s) (conversations s) (users_file s) (accepting s) (listen_callbacks s) (close_callbacks s).

Definition set_authenticatedUsers (v : list string) (s : State) : State :=
  mkState (listenerPort s) (listenerID s) (listeners s) (server_status s) (server_port s) v (console s) (replies s) (conversations s) (users_file s) (accepting s) (listen_callbacks s) (close_callbacks s).

Definition set_console (v : list LogLine) (s : State) : State :=
  mkState (listenerPort s) (listenerID s) (listeners s) (server_status s) (server_port s) (authenticatedUsers s) v (replies s) (conversations s) (users_file s) (accepting s) (listen_callbacks s) (close_callbacks s).

Definition set_replies (v : list (Message * string)) (s : State) : State :=
  mkState (listenerPort s) (listenerID s) (listeners s) (server_status s) (server_port s) (authenticatedUsers s) (console s) v (conversations s) (users_file s) (accepting s) (listen_callbacks s) (close_callbacks s).

Definition set_conversations (v : list Message) (s : State) : State :=
  mkState (listenerPort s) (listenerID s) (listeners s) (server_status s) (server_port s) (authenticatedUsers s) (console s) (replies s) v (users_file s) (accepting s) (listen_callbacks s) (close_callbacks s).

Definition set_users_file (v : list string) (s : State) : State :=
  mkState (listenerPort s) (listenerID s) (listeners s) (server_status s) (server_port s) (authenticatedUsers s) (console s) (replies s) (conversations s) v (accepting s) (listen_callbacks s) (close_callbacks s).

Definition set_accepting (v : bool) (s : State) : State :=
  mkState (listenerPort s) (listenerID s) (listeners s) (server_status s) (server_port s) (authenticatedUsers s) (console s) (replies s) (conversations s) (users_file s) v (listen_callbacks s) (close_callbacks s).

Definition set_listen_callbacks (v : list ListenCallback) (s : State) : State :=
  mkState (listenerPort s) (listenerID s) (listeners s) (server_status s) (server_port s) (authenticatedUsers s) (console s) (replies s) (conversations s) (users_file s) (accepting s) v (close_callbacks s).

Definition set_close_callbacks (v : list Message) (s : State) : State :=
  mkState (listenerPort s) (listenerID s) (listeners s) (server_status s) (server_port s) (authenticatedUsers s) (console s) (replies s) (conversations s) (users_file s) (accepting s) (listen_callbacks s) v.

(** ** Output *)

(** [console.log(line)] *)
Definition log (line : LogLine) (s : State) : State :=
  set_console (console s ++ [line])%list s.

(** [bot.reply(message, text)] *)
Definition reply (message : Message) (text : string) (s : State) : State :=
  set_replies (replies s ++ [(message, text)])%list s.

(** ** The socket handlers installed by the [net.createServer] callback *)

Definition on_socket_error (clientName : string) (s : State) : State :=
  log (Red (clientName ++ " has disconnected abruptly")) s.

Definition on_socket_pause (clientName : string) (s : State) : State :=
  log (Plain (clientName ++ " is paused"))
    (set_listeners (update clientName (set_status paused) (listeners s)) s).

Definition on_socket_resume (clientName : string) (s : State) : State :=
  log (Plain (clientName ++ " is running"))
    (set_listeners (update clientName (set_status running) (listeners s)) s).

Definition on_socket_close (clientName : string) (s : State) : State :=
  set_listeners (delete clientName (listeners s))
    (log (Plain (clientName ++ " has disconnected gracefully")) s).

(** The callback of [net.createServer], run for every accepted socket. *)
Definition on_connection (s : State) : State :=
  let clientName := "net#" ++ Js.of_nat (listenerID s) in
  let socket := mkSocket clientName running [] false in
  let s := set_listenerID (S (listenerID s)) s in
  let s := set_listeners (set clientName socket (listeners s)) s in
  log (Plain (clientName ++ " has joined")) s.

(** ** Methods of the transport that the program calls *)

(** [listeners[user].write(data)] *)
Definition socket_write (user data : string) (s : State) : State :=
  set_listeners (update user (write data) (listeners s)) s.

(** [listeners[user].end()]: the transport is told to finish; its ['close']
    event comes later, as an event of its own. *)
Definition socket_end (user : string) (s : State) : State :=
  set_listeners (update user end_ (listeners s)) s.

(** [listeners[user].pause()]: the stream emits ['pause'], which runs the
    handler above. *)
Definition socket_pause (user : string) (s : State) : State :=
  on_socket_pause user s.

(** [listeners[user].resume()]: the stream emits ['resume'].  (The runtime
    emits it on the next tick, before any other event is handled; no handler
    reads the status of a socket it has just resumed, so running the handler
    at the call gives the same state.) *)
Definition socket_resume (user : string) (s : State) : State :=
  on_socket_resume user s.

(** [netServer.listen(listenerPort, callback)] *)
Definition server_listen (callback : ListenCallback) (s : State) : State :=
  set_listen_callbacks (listen_callbacks s ++ [callback])%list
    (set_accepting true s).

(** [netServer.close(callback)]: the listener stops accepting at once; the
    callback runs when the server emits ['close']. *)
Definition server_close (callback : Message) (s : State) : State :=
  set_close_callbacks (close_callbacks s ++ [callback])%list
    (set_accepting false s).

(** ** [netServer.broadcast] *)

Definition broadcast (message : Payload) (s : State) : State :=
  let send := send_of message in
  let s :=
    Js.forEach (keys (listeners s))
      (fun user s =>
         if status_is user running (listeners s) then
           Js.forEach send (fun line s => socket_write user (line ++ Js.nl) s) s
         else s) s in
  Js.forEach send (fun line s => log (Plain line) s) s.

(** ** The command gateway *)

(** The keys of [controller.commands], in the order of the object literal. *)
Inductive Command : Type :=
| authenticate | options | status_ | endAll | pauseAll | resumeAll
| closeServer | openServer.

Definition all_commands : list Command :=
  [authenticate; options; status_; endAll; pauseAll; resumeAll;
   closeServer; openServer].

Definition commandList (c : Command) : list string :=
  match c with
  | authenticate => ["authenticate"]
  | options => ["options"]
  | status_ => ["status"]
  | endAll => ["end-all"]
  | pauseAll => ["pause-all"]
  | resumeAll => ["resume-all"]
  | closeServer => ["close-server"]
  | openServer => ["open-server"]
  end.

Definition description (c : Command) : string :=
  match c with
  | authenticate => "Authenticate into the system"
  | options => "Get a list of all availale commands"
  | status_ => "Get Status of external connections"
  | endAll => "End all of the current connections"
  | pauseAll => "Pause all connections"
  | resumeAll => "Resume all of the currently paused connections"
  | closeServer => "Close the server"
  | openServer => "Open the server"
  end.

Definition TAB : string := String "009"%char EmptyString.

(** [controller.isAuthenticated] *)
Definition isAuthenticated (user : string) (s : State) : bool :=
  Js.includes (authenticatedUsers s) user.

Definition not_authenticated : string :=
  "You'll need to be authenticated first. type 'authenticate' to continue".

(** [controller.authenticatedTask] *)
Definition authenticatedTask (message : Message)
    (task : Message -> State -> State) (s : State) : State :=
  if isAuthenticated (msg_user message) s then task message s
  else reply message not_authenticated s.

(** The handler of [authenticate]. *)
Definition authenticate_handler (message : Message) (s : State) : State :=
  if negb (isAuthenticated (msg_user message) s) then
    set_conversations (conversations s ++ [message])%list s
  else reply message "You're already authenticated!" s.

(** The callbacks of the password question. *)
Definition good_password (message : Message) (s : State) : State :=
  let s := set_authenticatedUsers
             (Js.push (msg_user message) (authenticatedUsers s)) s in
  let s := reply message "Roger, you're in!" s in
  let s := set_users_file (users_file s ++ [(msg_user message ++ Js.nl)%string])%list s in
  log (Plain "Updated User list!") s.

Definition bad_password (message : Message) (s : State) : State :=
  reply message "Are you trying to get me fired?" s.

(** The task of [status]. *)
Definition status_task (message : Message) (s : State) : State :=
  let users := keys (listeners s) in
  let outMessage :=
    "Listener Port: "
    ++ match server_port s with Some p => p | None => "undefined" end in
  let outMessage :=
    outMessage ++ Js.nl ++ "Server Status: "
    ++ ServerStatus_str (server_status s) in
  let outMessage :=
    outMessage ++ Js.nl ++ "Current Connections: " ++ Js.of_nat (List.length users) in
  let outMessage :=
    Js.forEach users
      (fun user out =>
         out ++ Js.nl ++ TAB ++ user ++ " is "
         ++ match get user (listeners s) with
            | Some k => SocketStatus_str (status k)
            | None => "undefined"
            end)
      outMessage in
  reply message outMessage s.

(** The handler of [options]; it is not wrapped in [authenticatedTask]. *)
Definition options_handler (message : Message) (s : State) : State :=
  let commands :=
    if isAuthenticated (msg_user message) s then all_commands
    else [options; authenticate] in
  let outMessage :=
    Js.forEach commands
      (fun command out =>
         out ++ Js.nl ++ TAB ++ Js.join ", " (commandList command)
         ++ " : " ++ description command)
      "Command List:" in
  reply message outMessage s.

(** The task of [end-all]. *)
Definition endAll_task (message : Message) (s : State) : State :=
  let users := keys (listeners s) in
  let '(s, count) :=
    Js.forEach users
      (fun user '(s, count) => (socket_end user s, count + 1)) (s, 0) in
  reply message ("Clients Terminated: " ++ Js.of_nat count) s.

(** The task of [pause-all]. *)
Definition pauseAll_task (message : Message) (s : State) : State :=
  let users := keys (listeners s) in
  let s :=
    Js.forEach users
      (fun user s =>
         if status_is user running (listeners s) then socket_pause user s
         else s) s in
  reply message ("Clients Paused: " ++ Js.of_nat (List.length users)) s.

(** The task of [resume-all]. *)
Definition resumeAll_task (message : Message) (s : State) : State :=
  let users := keys (listeners s) in
  let '(s, count) :=
    Js.forEach users
      (fun user '(s, count) =>
         if status_is user paused (listeners s)
         then (socket_resume user s, count + 1)
         else (s, count)) (s, 0) in
  reply message ("Clients Resumed: " ++ Js.of_nat count) s.

(** The callback the close-server task passes to [netServer.close]. *)
Definition close_callback (message : Message) (s : State) : State :=
  set_server_status closed (reply message "Server Successfully closed" s).

(** The callbacks passed to [netServer.listen]. *)
Definition listen_callback (cb : ListenCallback) (s : State) : State :=
  match cb with
  | StartupListen =>
      set_server_port (Some (listenerPort s)) (set_server_status listening s)
  | OpenListen message =>
      set_server_status listening (reply message "Server Successfully opened" s)
  end.

Definition weird_state (message : Message) (s : State) : State :=
  reply message
    ("Server in a weird state: " ++ ServerStatus_str (server_status s)) s.

(** The task of [close-server]. *)
Definition closeServer_task (message : Message) (s : State) : State :=
  match server_status s with
  | listening =>
      let s :=
        if (0 <? List.length (keys (listeners s)))%nat then
          let s := set_server_status closing s in
          let s := reply message "Attempting to Close Server" s in
          let s := reply message
                     "Server will remain open until all listeners disconnect" s in
          reply message "Hint: telling me to 'end-all' should end it now" s
        else s in
      server_close message s
  | closed => reply message "Can't close a closed Server" s
  | closing =>
      let s := reply message
        "Server is already closing.  It will close after all listeners disconnect." s in
      reply message
        "Hint: you can tell me to 'end-all' to close all the listeners" s
  | undefined => weird_state message s
  end.

(** The task of [open-server]. *)
Definition openServer_task (message : Message) (s : State) : State :=
  match server_status s with
  | closed => server_listen (OpenListen message) s
  | listening => reply message "Can't open an open Server" s
  | closing =>
      let s := reply message
        "Server is currently closing.  It will close after all listeners disconnect." s in
      reply message
        "Hint: you can tell me to 'end-all' to close all the listeners and then 'open-server' to open properly" s
  | undefined => weird_state message s
  end.

(** The operation behind each command that runs under [authenticatedTask]. *)
Definition task_of (c : Command) : option (Message -> State -> State) :=
  match c with
  | authenticate | options => None
  | status_ => Some status_task
  | endAll => Some endAll_task
  | pauseAll => Some pauseAll_task
  | resumeAll => Some resumeAll_task
  | closeServer => Some closeServer_task
  | openServer => Some openServer_task
  end.

(** The handler that [controller.hears] registers for each command. *)
Definition hears (c : Command) (message : Message) (s : State) : State :=
  match c with
  | authenticate => authenticate_handler message s
  | options => options_handler message s
  | status_ => authenticatedTask message status_task s
  | endAll => authenticatedTask message endAll_task s
  | pauseAll => authenticatedTask message pauseAll_task s
  | resumeAll => authenticatedTask message resumeAll_task s
  | closeServer => authenticatedTask message closeServer_task s
  | openServer => authenticatedTask message openServer_task s
  end.

(** The handler of ambient messages: everything heard is broadcast. *)
Definition ambient_handler (message : Message) (s : State) : State :=
  broadcast
    (Structured (msg_channel message) (msg_user message) (msg_text message)) s.

(** ** The transition system *)

(** What the runtime can deliver to the program. *)
Inductive Event : Type :=
| Listening                              (* 'listening' of netServer *)
| Connection                             (* a client has connected *)
| SocketError (clientName : string)      (* 'error' of a socket *)
| SocketPause (clientName : string)      (* 'pause' of a socket *)
| SocketResume (clientName : string)     (* 'resume' of a socket *)
| SocketClose (clientName : string)      (* 'close' of a socket *)
| ServerClose                            (* 'close' of netServer *)
| Hears (c : Command) (message : Message)
| GoodPassword (message : Message)
| BadPassword (message : Message)
| Ambient (message : Message).

Definition Message_eqb (a b : Message) : bool :=
  String.eqb (msg_user a) (msg_user b)
  && String.eqb (msg_channel a) (msg_channel b)
  && String.eqb (msg_text a) (msg_text b).

Fixpoint end_conversation (message : Message) (l : list Message) : list Message :=
  match l with
  | [] => []
  | m :: r => if Message_eqb m message then r else m :: end_conversation message r
  end.

Definition registered (clientName : string) (s : State) : bool :=
  match get clientName (listeners s) with Some _ => true | None => false end.

Definition is_nil {A : Type} (l : list A) : bool :=
  match l with [] => true | _ :: _ => false end.

(** One event, handled to completion.  [None] when the runtime cannot
    deliver the event in this state: a socket event needs the socket, a
    connection needs a bound listener, ['listening'] follows a [listen], and
    the server emits ['close'] after a [close].  The runtime emits that
    ['close'] when its own count of open connections reaches zero; this
    count is not a variable of the program and it can reach zero before the
    ['close'] handler of the last socket has deleted its entry from
    [listeners].  The event is therefore deliverable whenever a [close] is
    pending, whatever [listeners] holds: the traces of the model include
    every order in which the runtime can deliver it. *)
Definition step (e : Event) (s : State) : option State :=
  match e with
  | Listening =>
      if is_nil (listen_callbacks s) then None
      else Some (Js.forEach (listen_callbacks s) listen_callback
                   (set_listen_callbacks [] s))
  | Connection =>
      if accepting s then Some (on_connection s) else None
  | SocketError clientName =>
      if registered clientName s then Some (on_socket_error clientName s)
      else None
  | SocketPause clientName =>
      if registered clientName s then Some (on_socket_pause clientName s)
      else None
  | SocketResume clientName =>
      if registered clientName s then Some (on_socket_resume clientName s)
      else None
  | SocketClose clientName =>
      if registered clientName s then Some (on_socket_close clientName s)
      else None
  | ServerClose =>
      if negb (accepting s) && negb (is_nil (close_callbacks s))
      then Some (Js.forEach (close_callbacks s) close_callback
                   (set_close_callbacks [] s))
      else None
  | Hears c message => Some (hears c message s)
  | GoodPassword message =>
      if existsb (Message_eqb message) (conversations s)
      then Some (good_password message
                   (set_conversations
                      (end_conversation message (conversations s)) s))
      else None
  | BadPassword message =>
      if existsb (Message_eqb message) (conversations s)
      then Some (bad_password message
                   (set_conversations
                      (end_conversation message (conversations s)) s))
      else None
  | Ambient message => Some (ambient_handler message s)
  end.

(** A sequence of events, oldest first. *)
Fixpoint run (evs : list Event) (s : State) : option State :=
  match evs with
  | [] => Some s
  | e :: r => match step e s with Some s' => run r s' | None => None end
  end.

(** The state once the module is loaded: [port] is [LISTENERPORT] and [data]
    what was read from the file [.users] (empty when it could not be read). *)
Definition init (port data : string) : State :=
  server_listen StartupListen
    (mkState port 0 [] undefined None (Js.split_nl data)
       [Yellow ("Waiting for flink on: " ++ port)] [] [] [] false [] []).

Definition boss : Message := mkMessage "U1" "D1" "".
Definition three_joined : list Event :=
  [Listening; Connection; Connection; Connection].

(** ** Vocabulary of the statements *)

(** A socket after the lines [send] were written to it, one [write] per
    line, each line followed by a line feed. *)
Definition deliver (send : list string) (k : Socket) : Socket :=
  mkSocket (nickname k) (status k)
    (written k ++ map (fun line => (line ++ Js.nl)%string) send)%list (ended k).

(** The same change [F] applied to every socket of the registry that is in
    status [st]; the others are left as they are. *)
Definition map_status (st : SocketStatus) (F : Socket -> Socket)
    (l : Registry) : Registry :=
  map (fun e => (fst e, if SocketStatus_eqb (status (snd e)) st
                        then F (snd e) else snd e)) l.

(** How many registered sockets are in status [st]. *)
Definition count_status (st : SocketStatus) (l : Registry) : nat :=
  List.length (filter (fun e => SocketStatus_eqb (status (snd e)) st) l).

(** The text of the latest reply. *)
Definition last_reply (s : State) : option string :=
  match rev (replies s) with
  | [] => None
  | (_, text) :: _ => Some text
  end.

(** ** Concrete scenarios *)

Definition state_of (o : option State) : State :=
  match o with Some s => s | None => init "" "" end.

(** Three clients have joined and the second one is paused. *)
Definition one_paused : State :=
  state_of (run (three_joined ++ [SocketPause "net#1"]) (init "9000" "U1")).

Definition hello_world : Payload :=
  Structured "C1" "U1" ("hello" ++ Js.nl ++ "world").

(** Three clients have joined and [pause-all] has paused them all. *)
Definition all_paused : State :=
  state_of (run (three_joined ++ [Hears pauseAll boss]) (init "9000" "U1")).

(** Three clients have joined, a message was broadcast, and the transport of
    the first client has then reported an error. *)
Definition after_error : State :=
  state_of (run (three_joined
                 ++ [Ambient (mkMessage "U1" "C1" "hello"); SocketError "net#0"])
              (init "9000" "U1")).

(** The part of the state that the life cycle of the listener is about. *)
Definition control (s : State)
  : ServerStatus * bool * list ListenCallback * list Message :=
  (server_status s, accepting s, listen_callbacks s, close_callbacks s).

(** Three clients have joined and the operator has asked to close. *)
Definition closing_state : State :=
  state_of (run (three_joined ++ [Hears closeServer boss]) (init "9000" "U1")).

(** Three clients have joined. *)
Definition three_clients : State :=
  state_of (run three_joined (init "9000" "U1")).

(** The listener is up and nobody has connected. *)
Definition no_client : State :=
  state_of (run [Listening] (init "9000" "U1")).

(** While the status is [listening] or [closing], no ['listening'] callback
    is waiting. *)
Definition settled (s : State) : Prop :=
  server_status s = listening \/ server_status s = closing ->
  listen_callbacks s = [].

(** The listener has been closed with no connection left, and its ['close']
    has not been delivered yet. *)
Definition shutting_down (s : State) : Prop :=
  server_status s = listening /\ listeners s = [] /\ accepting s = false
  /\ close_callbacks s <> [].

(** The texts of the replies sent between the states [s] and [s']. *)
Definition new_replies (s s' : State) : list string :=
  skipn (List.length (replies s)) (map snd (replies s')).

(** A caller who has not authenticated. *)
Definition stranger : Message := mkMessage "U9" "D9" "".

(** Every registered nickname was made from a value the counter
    [listenerID] has already passed. *)
Definition named_below (s : State) : Prop :=
  forall name, In name (keys (listeners s)) ->
  exists i, (i < listenerID s)%nat /\ name = ("net#" ++ Js.of_nat i)%string.

(** The same change [F] applied to every socket of the registry. *)
Definition map_sockets (F : Socket -> Socket) (l : Registry) : Registry :=
  map (fun e => (fst e, F (snd e))) l.

(** Is the last character of the string a line feed? *)
Fixpoint ends_with_nl (s : string) : bool :=
  match s with
  | EmptyString => false
  | String c EmptyString => Ascii.eqb c Js.LF
  | String _ r => ends_with_nl r
  end.

(** The line of the status text for one connection. *)
Definition status_line (e : string * Socket) : string :=
  Js.nl ++ TAB ++ fst e ++ " is " ++ SocketStatus_str (status (snd e)).

(** The listener was asked to close while connections were open, and its
    ['close'] has not been delivered yet. *)
Definition closing_down (s : State) : Prop :=
  server_status s = closing /\ accepting s = false
  /\ listen_callbacks s = [] /\ close_callbacks s <> [].

(** All the strings of a list, one after the other. *)
Definition concat_strings (l : list string) : string :=
  fold_right String.append "" l.

(** [line + "\n"] *)
Definition terminate (line : string) : string := (line ++ Js.nl)%string.

(** A payload whose channel and user contain no line feed (a raw text has
    neither). *)
Definition clean_header (message : Payload) : Prop :=
  match message with
  | Structured channel user _ =>
      Js.has_nl channel = false /\ Js.has_nl user = false
  | _ => True
  end.

(** The contents of the file [.users] once the lines appended by the
    program are added to the [data] read at start-up. *)
Definition users_file_contents (data : string) (s : State) : string :=
  (data ++ concat_strings (users_file s))%string.

(** The events of a trace that answer a password question well carry a user
    without line feed. *)
Definition clean_passwords (evs : list Event) : Prop :=
  forall m, In (GoodPassword m) evs -> Js.has_nl (msg_user m) = false.

(** Two traces that start from the file ["U1\n"]. *)
Definition from_saved_file : State := init "9000" ("U1" ++ Js.nl).
Definition stranger_joins : list Event :=
  [Listening; Hears authenticate stranger; GoodPassword stranger].

(** The connection [name] is registered in [s], with exactly the data
    [data] written to it so far. *)
Definition written_to (name : string) (data : list string) (s : State) : Prop :=
  exists k, get name (listeners s) = Some k /\ written k = data.

(** The listener has been told to close and no [listen] has followed:
    either the ['close'] of the listener is still to come (CLOSING, its
    callback waiting) or it has been handled (CLOSED, nothing waiting). *)
Definition quiet (s : State) : Prop :=
  accepting s = false /\ listen_callbacks s = []
  /\ ((server_status s = closing /\ close_callbacks s <> [])
      \/ (server_status s = closed /\ close_callbacks s = [])).

(** No open-server request among the events. *)
Definition no_open_request (evs : list Event) : Prop :=
  forall m, ~ In (Hears openServer m) evs.

(** After close-server: end-all, then the connections and the listener
    close, the listener before the last connection. *)
Definition listener_closes_first : list Event :=
  [Hears endAll boss; SocketClose "net#1"; SocketClose "net#2"; ServerClose;
   SocketClose "net#0"].

(** The same with the listener last. *)
Definition listener_closes_last : list Event :=
  [Hears endAll boss; SocketClose "net#0"; SocketClose "net#1";
   SocketClose "net#2"; ServerClose].

(** * Properties *)

(** ** Splitting into lines *)

Section Lines.

Example split_hello_world :
  Js.split_nl ("hello" ++ Js.nl ++ "world") = ["hello"; "world"].
Proof. reflexivity. Qed.

Example split_trailing : Js.split_nl ("a" ++ Js.nl) = ["a"; ""].
Proof. reflexivity. Qed.

Example of_nat_12 : Js.of_nat 12 = "12" /\ Js.of_nat 0 = "0".
Proof. split; reflexivity. Qed.

Example send_structured :
  send_of (Structured "C1" "U1" ("hello" ++ Js.nl ++ "world"))
  = ["C1,U1,hello"; "C1,U1,world"].
Proof. reflexivity. Qed.

Lemma split_nl_cons (c : ascii) (r : string) :
  Js.split_nl (String c r)
  = if Ascii.eqb c Js.LF then EmptyString :: Js.split_nl r
    else match Js.split_nl r with
         | l :: ls => String c l :: ls
         | [] => [String c EmptyString]
         end.
Proof. reflexivity. Qed.

Lemma split_nl_not_nil (s : string) : Js.split_nl s <> [].
Proof.
  destruct s as [|c r]; [discriminate|].
  rewrite split_nl_cons.
  destruct (Ascii.eqb c Js.LF); [discriminate|].
  destruct (Js.split_nl r); discriminate.
Qed.

(** A string with [k] line feeds has [k + 1] lines. *)
Lemma split_nl_length (s : string) :
  List.length (Js.split_nl s) = Js.count_nl s + 1.
Proof.
  induction s as [|c r IH]; [reflexivity|].
  rewrite split_nl_cons. cbn [Js.count_nl].
  destruct (Ascii.eqb c Js.LF).
  - cbn [List.length]. rewrite IH. lia.
  - pose proof (split_nl_not_nil r) as Hne.
    destruct (Js.split_nl r) as [|l ls]; [contradiction|].
    cbn [List.length] in *. lia.
Qed.

(** Joining the lines with line feeds gives the string back. *)
Lemma join_split_nl (s : string) : Js.join Js.nl (Js.split_nl s) = s.
Proof.
  induction s as [|c r IH]; [reflexivity|].
  rewrite split_nl_cons.
  pose proof (split_nl_not_nil r) as Hne.
  destruct (Ascii.eqb c Js.LF) eqn:Hc.
  - apply Ascii.eqb_eq in Hc. subst c.
    destruct (Js.split_nl r) as [|l ls]; [contradiction|].
    change (Js.join Js.nl (EmptyString :: l :: ls))
      with (String Js.LF (Js.join Js.nl (l :: ls))).
    now rewrite IH.
  - destruct (Js.split_nl r) as [|l ls]; [contradiction|].
    destruct ls as [|l' ls'].
    + cbn in IH |- *. now rewrite IH.
    + change (Js.join Js.nl (String c l :: l' :: ls'))
        with (String c (Js.join Js.nl (l :: l' :: ls'))).
      now rewrite IH.
Qed.

(** No line contains a line feed. *)
Lemma split_nl_no_nl (s : string) :
  Forall (fun line => Js.has_nl line = false) (Js.split_nl s).
Proof.
  induction s as [|c r IH]; [repeat constructor|].
  rewrite split_nl_cons.
  destruct (Ascii.eqb c Js.LF) eqn:Hc.
  - constructor; [reflexivity | exact IH].
  - destruct (Js.split_nl r) as [|l ls]; [repeat constructor; cbn; now rewrite Hc|].
    inversion IH as [|? ? Hl Hls]; subst.
    constructor; [cbn; now rewrite Hc, Hl | exact Hls].
Qed.

(** A loop that pushes [f x] for every [x] builds [map f]. *)
Lemma forEach_push_map {A B : Type} (f : A -> B) (a : list A) (acc : list B) :
  Js.forEach a (fun x send => Js.push (f x) send) acc = (acc ++ map f a)%list.
Proof.
  unfold Js.forEach, Js.push.
  revert acc; induction a as [|x r IH]; intro acc; cbn.
  - now rewrite app_nil_r.
  - rewrite IH, <- app_assoc. reflexivity.
Qed.

Lemma send_of_not_nil_raw (text : string) : send_of (RawText text) <> [].
Proof. apply split_nl_not_nil. Qed.

End Lines.

(** ** The registry *)

Local Open Scope list_scope.

Section RegistryFacts.

Implicit Types (l : Registry) (k : Socket) (name : string).

Lemma keys_app l1 l2 : keys (l1 ++ l2) = (keys l1 ++ keys l2)%list.
Proof. apply map_app. Qed.

Lemma keys_update name (f : Socket -> Socket) l : keys (update name f l) = keys l.
Proof.
  unfold keys. induction l as [|[n k] r IH]; [reflexivity|].
  cbn. destruct (String.eqb n name); cbn; [reflexivity | now rewrite IH].
Qed.

Lemma get_In_keys name l k : get name l = Some k -> In name (keys l).
Proof.
  induction l as [|[n k'] r IH]; [discriminate|].
  cbn. destruct (String.eqb n name) eqn:E.
  - apply String.eqb_eq in E. now left.
  - intro H. right. now apply IH.
Qed.

Lemma get_not_In_keys name l : ~ In name (keys l) -> get name l = None.
Proof.
  intro H. destruct (get name l) eqn:E; [|reflexivity].
  exfalso. eapply H, get_In_keys, E.
Qed.

Lemma In_keys_get name l : In name (keys l) -> exists k, get name l = Some k.
Proof.
  induction l as [|[n k'] r IH]; [contradiction|].
  cbn. intros [H | H].
  - subst. rewrite String.eqb_refl. eauto.
  - destruct (String.eqb n name); eauto.
Qed.

Lemma get_app_skip name l1 l2 :
  ~ In name (keys l1) -> get name (l1 ++ l2) = get name l2.
Proof.
  induction l1 as [|[n k] r IH]; [reflexivity|].
  cbn. intro H. destruct (String.eqb n name) eqn:E.
  - apply String.eqb_eq in E. tauto.
  - apply IH. tauto.
Qed.

Lemma update_app_skip name (f : Socket -> Socket) l1 l2 :
  ~ In name (keys l1) -> update name f (l1 ++ l2) = (l1 ++ update name f l2)%list.
Proof.
  induction l1 as [|[n k] r IH]; [reflexivity|].
  cbn. intro H. destruct (String.eqb n name) eqn:E.
  - apply String.eqb_eq in E. tauto.
  - rewrite IH by tauto. reflexivity.
Qed.

Lemma update_ext name (f g : Socket -> Socket) l :
  (forall k, f k = g k) -> update name f l = update name g l.
Proof.
  intro H. induction l as [|[n k] r IH]; [reflexivity|].
  cbn. now rewrite H, IH.
Qed.

Lemma update_id name l : update name (fun k => k) l = l.
Proof.
  induction l as [|[n k] r IH]; [reflexivity|].
  cbn. rewrite IH. now destruct (String.eqb n name).
Qed.

Lemma update_update name (f g : Socket -> Socket) l :
  update name f (update name g l) = update name (fun k => f (g k)) l.
Proof.
  induction l as [|[n k] r IH]; [reflexivity|].
  cbn. destruct (String.eqb n name) eqn:E; cbn; rewrite E; [reflexivity|].
  now rewrite IH.
Qed.

Lemma get_delete_same name l : get name (delete name l) = None.
Proof.
  induction l as [|[n k] r IH]; [reflexivity|].
  cbn. destruct (String.eqb n name) eqn:E; [exact IH|].
  cbn. now rewrite E.
Qed.

Lemma get_delete_other name name' l :
  name' <> name -> get name' (delete name l) = get name' l.
Proof.
  intro Hne. induction l as [|[n k] r IH]; [reflexivity|].
  cbn. destruct (String.eqb n name) eqn:E.
  - apply String.eqb_eq in E. subst n.
    rewrite IH. destruct (String.eqb name name') eqn:E'; [|reflexivity].
    apply String.eqb_eq in E'. congruence.
  - cbn. now rewrite IH.
Qed.

Lemma keys_map_status st (F : Socket -> Socket) l : keys (map_status st F l) = keys l.
Proof. unfold keys, map_status. rewrite map_map. reflexivity. Qed.

(** A loop over the keys that changes, by [F], the sockets found in status
    [st]: every socket is visited once when the keys are distinct. *)
Lemma loop_map_status st (F : Socket -> Socket) l2 : forall l1,
  NoDup (keys l2) ->
  (forall name, In name (keys l2) -> ~ In name (keys l1)) ->
  fold_left
    (fun l user => if status_is user st l then update user F l else l)
    (keys l2) (l1 ++ l2)%list
  = (l1 ++ map_status st F l2)%list.
Proof.
  induction l2 as [|[n k] r IH]; intros l1 Hnd Hdis; [reflexivity|].
  inversion Hnd as [|? ? Hn Hr]; subst.
  assert (Hn1 : ~ In n (keys l1)) by (apply Hdis; now left).
  set (body := fun l user => if status_is user st l then update user F l else l) in *.
  set (k' := if SocketStatus_eqb (status k) st then F k else k).
  assert (Hstep : body (l1 ++ (n, k) :: r) n = (l1 ++ [(n, k')]) ++ r).
  { subst body k'. cbn beta. unfold status_is.
    rewrite get_app_skip by exact Hn1.
    cbn [get]. rewrite String.eqb_refl.
    destruct (SocketStatus_eqb (status k) st).
    - rewrite update_app_skip by exact Hn1. cbn [update].
      rewrite String.eqb_refl, <- app_assoc. reflexivity.
    - rewrite <- app_assoc. reflexivity. }
  change (keys ((n, k) :: r)) with (n :: keys r).
  cbn [fold_left]. rewrite Hstep.
  rewrite (IH (l1 ++ [(n, k')]) Hr).
  - rewrite <- app_assoc. reflexivity.
  - intros name Hin. rewrite keys_app, in_app_iff. cbn.
    intros [H | [H | []]].
    + apply (Hdis name); [now right | exact H].
    + subst. contradiction.
Qed.

Lemma loop_map_status_all st (F : Socket -> Socket) l :
  NoDup (keys l) ->
  fold_left
    (fun l user => if status_is user st l then update user F l else l)
    (keys l) l
  = map_status st F l.
Proof.
  intro Hnd. apply (loop_map_status st F l [] Hnd). intros ? ? [].
Qed.

End RegistryFacts.

(** ** Loops over the state *)

Section Loops.

Lemma set_listeners_same (s : State) : set_listeners (listeners s) s = s.
Proof. now destruct s. Qed.

Lemma set_listeners_twice (l l' : Registry) (s : State) :
  set_listeners l (set_listeners l' s) = set_listeners l s.
Proof. reflexivity. Qed.

Lemma forEach_ext {A S : Type} (f g : A -> S -> S) (a : list A) :
  (forall x s, f x s = g x s) ->
  forall s, Js.forEach a f s = Js.forEach a g s.
Proof.
  intro H. unfold Js.forEach.
  induction a as [|x r IH]; intro s; cbn; [reflexivity|].
  now rewrite H, IH.
Qed.

(** A loop whose body only assigns to the registry is a loop on the
    registry. *)
Lemma forEach_set_listeners {A : Type} (g : A -> Registry -> Registry)
    (a : list A) : forall s,
  Js.forEach a (fun x s => set_listeners (g x (listeners s)) s) s
  = set_listeners (fold_left (fun l x => g x l) a (listeners s)) s.
Proof.
  unfold Js.forEach.
  induction a as [|x r IH]; intro s; cbn [fold_left].
  - now rewrite set_listeners_same.
  - rewrite IH. reflexivity.
Qed.

Lemma forEach_log (lines : list string) : forall s,
  Js.forEach lines (fun line s => log (Plain line) s) s
  = set_console (console s ++ map Plain lines) s.
Proof.
  unfold Js.forEach.
  induction lines as [|x r IH]; intro s; cbn [fold_left map].
  - rewrite app_nil_r. now destruct s.
  - rewrite IH. unfold log. cbn. now rewrite <- app_assoc.
Qed.

Lemma deliver_nil (k : Socket) : deliver [] k = k.
Proof. destruct k. unfold deliver. cbn. now rewrite app_nil_r. Qed.

Lemma deliver_cons (line : string) (send : list string) (k : Socket) :
  deliver send (write (line ++ Js.nl)%string k) = deliver (line :: send) k.
Proof. unfold deliver, write. cbn. now rewrite <- app_assoc. Qed.

(** The inner loop of [broadcast]: one [write] per line. *)
Lemma write_lines (user : string) (send : list string) (s : State) :
  Js.forEach send (fun line s => socket_write user (line ++ Js.nl)%string s) s
  = set_listeners (update user (deliver send) (listeners s)) s.
Proof.
  unfold socket_write.
  rewrite (forEach_set_listeners
             (fun line l => update user (write (line ++ Js.nl)%string) l)).
  f_equal.
  generalize (listeners s) as l.
  induction send as [|x r IH]; intro l; cbn [fold_left].
  - rewrite (update_ext _ _ (fun k => k)) by apply deliver_nil.
    now rewrite update_id.
  - rewrite IH, update_update. apply update_ext. intro k. apply deliver_cons.
Qed.

(** [broadcast] in one step: the lines go to the running sockets and to the
    console, and nothing else changes. *)
Lemma broadcast_eq (message : Payload) (s : State) :
  NoDup (keys (listeners s)) ->
  broadcast message s
  = set_console (console s ++ map Plain (send_of message))
      (set_listeners
         (map_status running (deliver (send_of message)) (listeners s)) s).
Proof.
  intro Hnd. unfold broadcast. cbv zeta.
  pose (G := fun user l =>
               if status_is user running l
               then update user (deliver (send_of message)) l else l).
  match goal with
  | |- context [Js.forEach (keys _) ?f s] =>
      rewrite (forEach_ext f
                 (fun user s => set_listeners (G user (listeners s)) s))
  end.
  - rewrite (forEach_set_listeners G). subst G. cbn beta.
    rewrite loop_map_status_all by exact Hnd.
    now rewrite forEach_log.
  - intros user s0. subst G. cbn beta.
    destruct (status_is user running (listeners s0)).
    + apply write_lines.
    + now rewrite set_listeners_same.
Qed.

Lemma get_map_status (st : SocketStatus) (F : Socket -> Socket)
    (name : string) (l : Registry) :
  get name (map_status st F l)
  = option_map (fun k => if SocketStatus_eqb (status k) st then F k else k)
      (get name l).
Proof.
  induction l as [|[n k] r IH]; [reflexivity|].
  cbn. destruct (String.eqb n name); [reflexivity | exact IH].
Qed.

Lemma count_status_deliver (st : SocketStatus) (send : list string) (l : Registry) :
  count_status st (map_status running (deliver send) l) = count_status st l.
Proof.
  unfold count_status, map_status.
  induction l as [|[n k] r IH]; [reflexivity|].
  cbn [map filter fst snd].
  assert (E : status (if SocketStatus_eqb (status k) running
                      then deliver send k else k) = status k)
    by (now destruct (SocketStatus_eqb (status k) running)).
  rewrite E. destruct (SocketStatus_eqb (status k) st); cbn; now rewrite IH.
Qed.

End Loops.

(** ** Broadcast *)

Ltac evaluate := vm_compute; reflexivity.

Ltac distinct_keys :=
  vm_compute; repeat constructor; cbn; intuition discriminate.

(** C1.  A broadcast whose payload decomposes into the lines [L] writes to
    every connection that is RUNNING exactly the lines of [L], each followed
    by a line feed and in the order of [L], and writes nothing to a
    connection that is PAUSED.  The registry keeps its connections and their
    states, so the [N] running ones are served and the [M] paused ones are
    not. *)
Theorem broadcast_delivery (message : Payload) (s : State) :
  NoDup (keys (listeners s)) ->
  let L := send_of message in
  let s' := broadcast message s in
  keys (listeners s') = keys (listeners s)
  /\ (forall name k,
        get name (listeners s) = Some k -> status k = running ->
        exists k',
          get name (listeners s') = Some k'
          /\ written k' = written k ++ map (fun line => (line ++ Js.nl)%string) L
          /\ status k' = running)
  /\ (forall name k,
        get name (listeners s) = Some k -> status k = paused ->
        get name (listeners s') = Some k)
  /\ count_status running (listeners s') = count_status running (listeners s)
  /\ count_status paused (listeners s') = count_status paused (listeners s).
Proof.
  intros Hnd L s'. subst s'. rewrite (broadcast_eq message s Hnd). fold L.
  cbn [listeners set_console set_listeners].
  split; [apply keys_map_status|].
  split; [|split].
  - intros name k Hget Hrun. exists (deliver L k).
    rewrite get_map_status, Hget. cbn. rewrite Hrun. cbn. auto.
  - intros name k Hget Hp.
    rewrite get_map_status, Hget. cbn. now rewrite Hp.
  - split; apply count_status_deliver.
Qed.

Lemma broadcast_delivery_witness :
  NoDup (keys (listeners one_paused))
  /\ let s' := broadcast hello_world one_paused in
     keys (listeners s') = keys (listeners one_paused)
     /\ (forall name k,
           get name (listeners one_paused) = Some k -> status k = running ->
           exists k',
             get name (listeners s') = Some k'
             /\ written k'
                = written k
                  ++ map (fun line => (line ++ Js.nl)%string) (send_of hello_world)
             /\ status k' = running)
     /\ (forall name k,
           get name (listeners one_paused) = Some k -> status k = paused ->
           get name (listeners s') = Some k)
     /\ count_status running (listeners s')
        = count_status running (listeners one_paused)
     /\ count_status paused (listeners s')
        = count_status paused (listeners one_paused).
Proof.
  split; [distinct_keys | apply (broadcast_delivery hello_world one_paused)].
  distinct_keys.
Defined.

Example broadcast_one_paused :
  map (fun e => (fst e, written (snd e)))
    (listeners (broadcast hello_world one_paused))
  = [("net#0", [("C1,U1,hello" ++ Js.nl)%string; ("C1,U1,world" ++ Js.nl)%string]);
     ("net#1", []);
     ("net#2", [("C1,U1,hello" ++ Js.nl)%string; ("C1,U1,world" ++ Js.nl)%string])].
Proof. reflexivity. Qed.

(** C3.  For a structured payload [{channel, user, text}] the lines sent are
    the lines of [text], split at the line feeds, each serialised as
    [channel,user,line] with plain commas, in the order of the text. *)
Theorem structured_lines (channel user text : string) :
  send_of (Structured channel user text)
  = map (fun line => (channel ++ "," ++ user ++ "," ++ line)%string)
      (Js.split_nl text)
  /\ Js.join Js.nl (Js.split_nl text) = text
  /\ Forall (fun line => Js.has_nl line = false) (Js.split_nl text)
  /\ (forall i line,
        nth_error (Js.split_nl text) i = Some line ->
        nth_error (send_of (Structured channel user text)) i
        = Some (channel ++ "," ++ user ++ "," ++ line)%string).
Proof.
  assert (E : send_of (Structured channel user text)
              = map (fun line => (channel ++ "," ++ user ++ "," ++ line)%string)
                  (Js.split_nl text)).
  { unfold send_of. now rewrite forEach_push_map. }
  split; [exact E|].
  split; [apply join_split_nl|].
  split; [apply split_nl_no_nl|].
  intros i line H. rewrite E.
  exact (map_nth_error _ i (Js.split_nl text) H).
Qed.

Example commas_are_not_escaped :
  send_of (Structured "a,b" "u,v" ("x,y" ++ Js.nl ++ ",")%string)
  = ["a,b,u,v,x,y"; "a,b,u,v,,"]%string.
Proof. reflexivity. Qed.

(** C10.  A raw text with [k] line feeds is decomposed into [k + 1] lines,
    empty ones included; the empty text is one empty line, which reaches
    every running connection as a bare line feed and the log as one empty
    line. *)
Theorem raw_text_lines (text : string) (s : State) :
  NoDup (keys (listeners s)) ->
  List.length (send_of (RawText text)) = Js.count_nl text + 1
  /\ send_of (RawText "") = [""%string]
  /\ console (broadcast (RawText "") s) = console s ++ [Plain ""]
  /\ (forall name k,
        get name (listeners s) = Some k -> status k = running ->
        exists k',
          get name (listeners (broadcast (RawText "") s)) = Some k'
          /\ written k' = written k ++ [Js.nl])
  /\ (forall name k,
        get name (listeners s) = Some k -> status k = paused ->
        get name (listeners (broadcast (RawText "") s)) = Some k).
Proof.
  intro Hnd.
  split; [apply split_nl_length|].
  split; [reflexivity|].
  rewrite (broadcast_eq (RawText "") s Hnd).
  cbn [listeners console set_console set_listeners].
  split; [reflexivity|].
  split.
  - intros name k Hget Hrun. exists (deliver [""%string] k).
    rewrite get_map_status, Hget. cbn. rewrite Hrun. cbn. auto.
  - intros name k Hget Hp.
    rewrite get_map_status, Hget. cbn. now rewrite Hp.
Qed.

Lemma raw_text_lines_witness :
  NoDup (keys (listeners one_paused))
  /\ List.length (send_of (RawText "")) = Js.count_nl "" + 1
  /\ send_of (RawText "") = [""%string]
  /\ console (broadcast (RawText "") one_paused)
     = console one_paused ++ [Plain ""]
  /\ (forall name k,
        get name (listeners one_paused) = Some k -> status k = running ->
        exists k',
          get name (listeners (broadcast (RawText "") one_paused)) = Some k'
          /\ written k' = written k ++ [Js.nl])
  /\ (forall name k,
        get name (listeners one_paused) = Some k -> status k = paused ->
        get name (listeners (broadcast (RawText "") one_paused)) = Some k).
Proof.
  split; [distinct_keys | apply (raw_text_lines "" one_paused)].
  distinct_keys.
Defined.

Example raw_empty_one_paused :
  map (fun e => (fst e, written (snd e)))
    (listeners (broadcast (RawText "") one_paused))
  = [("net#0"%string, [Js.nl]); ("net#1"%string, []); ("net#2"%string, [Js.nl])]
  /\ List.length (send_of (RawText ("a" ++ Js.nl ++ Js.nl ++ "b")%string)) = 3.
Proof. split; reflexivity. Qed.

(** ** Loops and the fields they leave alone *)

Section Preservation.

(** A property kept by the body of a loop is kept by the loop. *)
Lemma forEach_preserves {A S : Type} (P : S -> Prop) (f : A -> S -> S)
    (a : list A) :
  (forall x s, P s -> P (f x s)) -> forall s, P s -> P (Js.forEach a f s).
Proof.
  intro H. unfold Js.forEach.
  induction a as [|x r IH]; intros s Hs; cbn; [exact Hs|].
  apply IH, H, Hs.
Qed.

(** The registry after a loop whose body acts on the registry by [g]. *)
Lemma forEach_listeners {A : Type} (body : A -> State -> State)
    (g : A -> Registry -> Registry) (a : list A) :
  (forall x s, listeners (body x s) = g x (listeners s)) ->
  forall s,
    listeners (Js.forEach a body s) = fold_left (fun l x => g x l) a (listeners s).
Proof.
  intro H. unfold Js.forEach.
  induction a as [|x r IH]; intro s; cbn; [reflexivity|].
  now rewrite IH, H.
Qed.

(** The registry after [broadcast] depends on the registry only. *)
Lemma broadcast_listeners (message : Payload) (s : State) :
  listeners (broadcast message s)
  = fold_left
      (fun l user => if status_is user running l
                     then update user (deliver (send_of message)) l else l)
      (keys (listeners s)) (listeners s).
Proof.
  unfold broadcast. cbv zeta.
  rewrite forEach_log. cbn [listeners set_console].
  apply (forEach_listeners _
           (fun user l => if status_is user running l
                          then update user (deliver (send_of message)) l else l)).
  intros user s0.
  destruct (status_is user running (listeners s0)); [|reflexivity].
  now rewrite write_lines.
Qed.

(** The loop of the pause-all task, on the registry. *)
Lemma pauseAll_loop_listeners (users : list string) (s : State) :
  listeners
    (Js.forEach users
       (fun user s =>
          if status_is user running (listeners s) then socket_pause user s
          else s) s)
  = fold_left
      (fun l user => if status_is user running l
                     then update user (set_status paused) l else l)
      users (listeners s).
Proof.
  apply (forEach_listeners _
           (fun user l => if status_is user running l
                          then update user (set_status paused) l else l)).
  intros user s0.
  now destruct (status_is user running (listeners s0)).
Qed.

Lemma pauseAll_loop_replies (users : list string) (s : State) :
  replies
    (Js.forEach users
       (fun user s =>
          if status_is user running (listeners s) then socket_pause user s
          else s) s)
  = replies s.
Proof.
  apply (forEach_preserves (fun s' => replies s' = replies s)); [|reflexivity].
  intros user s0 H.
  now destruct (status_is user running (listeners s0)).
Qed.

Lemma last_reply_reply (message : Message) (text : string) (s : State) :
  last_reply (reply message text s) = Some text.
Proof. unfold last_reply, reply. cbn. now rewrite rev_app_distr. Qed.

End Preservation.

(** ** Pause-all *)

Lemma count_running_after_pause (l : Registry) :
  count_status running (map_status running (set_status paused) l) = 0.
Proof.
  unfold count_status, map_status.
  induction l as [|[n k] r IH]; [reflexivity|].
  cbn [map filter fst snd].
  destruct (status k) eqn:Ek; cbn; rewrite ?Ek; cbn; exact IH.
Qed.

(** The pause-all task leaves every connection paused, and its reply counts
    every registered connection, whatever its state was. *)
Lemma pauseAll_task_spec (message : Message) (s : State) :
  NoDup (keys (listeners s)) ->
  listeners (pauseAll_task message s)
  = map_status running (set_status paused) (listeners s)
  /\ count_status running (listeners (pauseAll_task message s)) = 0
  /\ last_reply (pauseAll_task message s)
     = Some ("Clients Paused: " ++ Js.of_nat (List.length (listeners s)))%string.
Proof.
  intro Hnd. unfold pauseAll_task. cbv zeta.
  assert (E : listeners
                (reply message
                   ("Clients Paused: "
                    ++ Js.of_nat (List.length (keys (listeners s))))%string
                   (Js.forEach (keys (listeners s))
                      (fun user s =>
                         if status_is user running (listeners s)
                         then socket_pause user s else s) s))
              = map_status running (set_status paused) (listeners s)).
  { cbn [listeners reply set_replies].
    rewrite pauseAll_loop_listeners. now apply loop_map_status_all. }
  split; [exact E|]. split.
  - rewrite E. apply count_running_after_pause.
  - rewrite last_reply_reply. unfold keys. now rewrite length_map.
Qed.

(** C2.  Pause-all on a registry whose three connections are all paused
    already: no connection is running, so none is affected, the registry is
    left as it is, and the reply still reads three. *)
Theorem pauseAll_reply_on_paused_registry :
  count_status running (listeners all_paused) = 0
  /\ count_status paused (listeners all_paused) = 3
  /\ isAuthenticated (msg_user boss) all_paused = true
  /\ listeners (hears pauseAll boss all_paused) = listeners all_paused
  /\ last_reply (hears pauseAll boss all_paused)
     = Some "Clients Paused: 3"%string.
Proof. do 4 (split; [evaluate|]). evaluate. Qed.

Example resumeAll_reply_counts_resumed :
  last_reply (hears resumeAll boss one_paused) = Some "Clients Resumed: 1"%string
  /\ last_reply (hears pauseAll boss one_paused) = Some "Clients Paused: 3"%string.
Proof. split; evaluate. Qed.

(** ** Transport errors *)

(** C4, as the specification states it, fails here: the transport of
    [net#0] has reported an error, the handler has logged it, and [net#0]
    is still registered; the next broadcast is written to it again. *)
Lemma error_leaves_connection_registered :
  run (three_joined
       ++ [Ambient (mkMessage "U1" "C1" "hello"); SocketError "net#0"])
    (init "9000" "U1") = Some after_error
  /\ registered "net#0" after_error = true
  /\ keys (listeners after_error) = ["net#0"; "net#1"; "net#2"]%string
  /\ option_map written
       (get "net#0" (listeners (broadcast (RawText "again") after_error)))
     = Some [("C1,U1,hello" ++ Js.nl)%string; ("again" ++ Js.nl)%string].
Proof. do 3 (split; [evaluate|]). evaluate. Qed.

(** C4, amended.  A transport error reaches the program as the ['error']
    event of the socket.  The handler logs the abrupt disconnect and does
    nothing else: the connection stays registered, and a broadcast after the
    error writes to every running connection as it would have without it.
    The connection leaves the registry when its ['close'] event is handled,
    and the other connections stay. *)
Theorem socket_error_is_logged_only (s : State) (name : string)
    (message : Payload) :
  registered name s = true ->
  exists s',
    step (SocketError name) s = Some s'
    /\ s' = log (Red (name ++ " has disconnected abruptly")%string) s
    /\ listeners s' = listeners s
    /\ listeners (broadcast message s') = listeners (broadcast message s)
    /\ exists s'',
         step (SocketClose name) s' = Some s''
         /\ registered name s'' = false
         /\ (forall other, other <> name ->
               get other (listeners s'') = get other (listeners s)).
Proof.
  intro Hreg. exists (on_socket_error name s).
  assert (Hl : listeners (on_socket_error name s) = listeners s) by reflexivity.
  split; [cbn [step]; now rewrite Hreg|].
  split; [reflexivity|]. split; [exact Hl|]. split.
  - now rewrite !broadcast_listeners, Hl.
  - exists (on_socket_close name (on_socket_error name s)).
    assert (Hreg' : registered name (on_socket_error name s) = true)
      by exact Hreg.
    split; [cbn [step]; now rewrite Hreg'|]. split.
    + unfold registered, on_socket_close. cbn [listeners set_listeners log set_console].
      now rewrite get_delete_same.
    + intros other Hne. unfold on_socket_close.
      cbn [listeners set_listeners log set_console].
      now apply get_delete_other.
Qed.

Lemma socket_error_is_logged_only_witness :
  registered "net#1" one_paused = true
  /\ exists s',
       step (SocketError "net#1") one_paused = Some s'
       /\ s' = log (Red ("net#1" ++ " has disconnected abruptly")%string) one_paused
       /\ listeners s' = listeners one_paused
       /\ listeners (broadcast hello_world s')
          = listeners (broadcast hello_world one_paused)
       /\ exists s'',
            step (SocketClose "net#1") s' = Some s''
            /\ registered "net#1" s'' = false
            /\ (forall other, other <> "net#1"%string ->
                  get other (listeners s'') = get other (listeners one_paused)).
Proof.
  split; [evaluate|].
  apply (socket_error_is_logged_only one_paused "net#1" hello_world).
  evaluate.
Defined.

(** ** The life cycle of the listener *)

Section LifeCycle.

Lemma control_forEach {A : Type} (f : A -> State -> State) (a : list A) :
  (forall x s, control (f x s) = control s) ->
  forall s, control (Js.forEach a f s) = control s.
Proof.
  intros H s.
  apply (forEach_preserves (fun s' => control s' = control s)); [|reflexivity].
  intros x s0 H0. now rewrite H.
Qed.

Lemma control_forEach_counting {A : Type} (f : A -> State * nat -> State * nat)
    (a : list A) (s : State) (n : nat) :
  (forall x p, control (fst (f x p)) = control (fst p)) ->
  control (fst (Js.forEach a f (s, n))) = control s.
Proof.
  intro H.
  apply (forEach_preserves (fun p => control (fst p) = control s)); [|reflexivity].
  intros x p Hp. now rewrite H.
Qed.

Lemma control_broadcast (message : Payload) (s : State) :
  control (broadcast message s) = control s.
Proof.
  unfold broadcast. cbv zeta.
  rewrite control_forEach by reflexivity.
  apply control_forEach. intros user s0.
  destruct (status_is user running (listeners s0)); [|reflexivity].
  now apply control_forEach.
Qed.

Lemma control_status_task (m : Message) (s : State) :
  control (status_task m s) = control s.
Proof. reflexivity. Qed.

Lemma control_endAll_task (m : Message) (s : State) :
  control (endAll_task m s) = control s.
Proof.
  unfold endAll_task. cbv zeta.
  match goal with
  | |- context [Js.forEach ?a ?f (s, 0)] =>
      pose proof (control_forEach_counting f a s 0) as H;
      destruct (Js.forEach a f (s, 0)) as [s1 count]
  end.
  cbn [fst] in H. rewrite <- H; [reflexivity|].
  now intros user [s0 c].
Qed.

Lemma control_pauseAll_task (m : Message) (s : State) :
  control (pauseAll_task m s) = control s.
Proof.
  unfold pauseAll_task. cbv zeta.
  change (control (reply ?m ?t ?s')) with (control s').
  apply control_forEach. intros user s0.
  now destruct (status_is user running (listeners s0)).
Qed.

Lemma control_resumeAll_task (m : Message) (s : State) :
  control (resumeAll_task m s) = control s.
Proof.
  unfold resumeAll_task. cbv zeta.
  match goal with
  | |- context [Js.forEach ?a ?f (s, 0)] =>
      pose proof (control_forEach_counting f a s 0) as H;
      destruct (Js.forEach a f (s, 0)) as [s1 count]
  end.
  cbn [fst] in H. rewrite <- H; [reflexivity|].
  intros user [s0 c]. now destruct (status_is user paused (listeners s0)).
Qed.

Lemma control_options_handler (m : Message) (s : State) :
  control (options_handler m s) = control s.
Proof. reflexivity. Qed.

Lemma control_authenticate_handler (m : Message) (s : State) :
  control (authenticate_handler m s) = control s.
Proof.
  unfold authenticate_handler.
  now destruct (negb (isAuthenticated (msg_user m) s)).
Qed.

Lemma keys_nil_iff (l : Registry) :
  (0 <? List.length (keys l))%nat = true <-> l <> [].
Proof.
  destruct l; cbn; split; intro H; try reflexivity; try discriminate.
  congruence.
Qed.

(** The close-server task, state by state. *)
Lemma control_closeServer_task (m : Message) (s : State) :
  control (closeServer_task m s)
  = match server_status s with
    | listening =>
        (if (0 <? List.length (keys (listeners s)))%nat then closing else listening,
         false, listen_callbacks s, close_callbacks s ++ [m])
    | _ => control s
    end.
Proof.
  unfold closeServer_task.
  destruct (server_status s) eqn:E; try (unfold control; cbn; now rewrite E).
  destruct (0 <? List.length (keys (listeners s)))%nat;
    unfold control; cbn; now rewrite ?E.
Qed.

(** The open-server task, state by state. *)
Lemma control_openServer_task (m : Message) (s : State) :
  control (openServer_task m s)
  = match server_status s with
    | closed =>
        (closed, true, listen_callbacks s ++ [OpenListen m], close_callbacks s)
    | _ => control s
    end.
Proof.
  unfold openServer_task.
  destruct (server_status s) eqn:E; unfold control; cbn; now rewrite E.
Qed.

(** After the ['listening'] callbacks the status is [listening]. *)
Lemma control_listen_callbacks (cbs : list ListenCallback) : forall s,
  control (Js.forEach cbs listen_callback s)
  = (match cbs with [] => server_status s | _ :: _ => listening end,
     accepting s, listen_callbacks s, close_callbacks s).
Proof.
  unfold Js.forEach.
  induction cbs as [|cb r IH]; intro s; [reflexivity|].
  cbn [fold_left]. rewrite IH.
  destruct cb; destruct r; reflexivity.
Qed.

(** After the ['close'] callbacks the status is [closed]. *)
Lemma control_close_callbacks (cbs : list Message) : forall s,
  control (Js.forEach cbs close_callback s)
  = (match cbs with [] => server_status s | _ :: _ => closed end,
     accepting s, listen_callbacks s, close_callbacks s).
Proof.
  unfold Js.forEach.
  induction cbs as [|cb r IH]; intro s; [reflexivity|].
  cbn [fold_left]. rewrite IH.
  destruct r; reflexivity.
Qed.

End LifeCycle.

(** What one event does to the life cycle. *)
Lemma step_control (e : Event) (s s' : State) :
  step e s = Some s' ->
  match e with
  | Listening =>
      listen_callbacks s <> []
      /\ control s' = (listening, accepting s, [], close_callbacks s)
  | ServerClose =>
      accepting s = false /\ close_callbacks s <> []
      /\ control s' = (closed, false, listen_callbacks s, [])
  | Connection => accepting s = true /\ control s' = control s
  | Hears closeServer m =>
      control s'
      = if isAuthenticated (msg_user m) s
        then match server_status s with
             | listening =>
                 (if (0 <? List.length (keys (listeners s)))%nat
                  then closing else listening,
                  false, listen_callbacks s, close_callbacks s ++ [m])
             | _ => control s
             end
        else control s
  | Hears openServer m =>
      control s'
      = if isAuthenticated (msg_user m) s
        then match server_status s with
             | closed =>
                 (closed, true, listen_callbacks s ++ [OpenListen m],
                  close_callbacks s)
             | _ => control s
             end
        else control s
  | _ => control s' = control s
  end.
Proof.
  destruct e as [| |n|n|n|n| |c m|m|m|m]; cbn [step]; intro H.
  - destruct (listen_callbacks s) as [|cb cbs] eqn:E; [discriminate|].
    injection H as <-. split; [discriminate|].
    rewrite control_listen_callbacks. destruct cb, cbs; reflexivity.
  - destruct (accepting s) eqn:E; [|discriminate].
    injection H as <-. now split.
  - destruct (registered n s); [|discriminate]. now injection H as <-.
  - destruct (registered n s); [|discriminate]. now injection H as <-.
  - destruct (registered n s); [|discriminate]. now injection H as <-.
  - destruct (registered n s); [|discriminate]. now injection H as <-.
  - destruct (accepting s) eqn:Ea; [discriminate|].
    destruct (close_callbacks s) as [|cb cbs] eqn:Ec; [discriminate|].
    injection H as <-. repeat (split; [easy|]).
    rewrite control_close_callbacks. destruct cbs; cbn; now rewrite Ea.
  - injection H as <-.
    destruct c; cbn [hears]; unfold authenticatedTask;
      [ apply control_authenticate_handler
      | apply control_options_handler
      | destruct (isAuthenticated (msg_user m) s); [|reflexivity] .. ].
    + apply control_status_task.
    + apply control_endAll_task.
    + apply control_pauseAll_task.
    + apply control_resumeAll_task.
    + apply control_closeServer_task.
    + apply control_openServer_task.
  - destruct (existsb (Message_eqb m) (conversations s)); [|discriminate].
    now injection H as <-.
  - destruct (existsb (Message_eqb m) (conversations s)); [|discriminate].
    now injection H as <-.
  - injection H as <-. apply control_broadcast.
Qed.

Lemma control_server_status (s s' : State) :
  control s' = control s -> server_status s' = server_status s.
Proof. unfold control. congruence. Qed.

(** CLOSING is entered by the close-server task alone, from LISTENING and
    with a connection registered. *)
Lemma step_into_closing (e : Event) (s s' : State) :
  step e s = Some s' ->
  server_status s' = closing -> server_status s <> closing ->
  server_status s = listening /\ listeners s <> []
  /\ exists m, e = Hears closeServer m /\ isAuthenticated (msg_user m) s = true.
Proof.
  intros H Hc Hn. apply step_control in H.
  destruct e as [| |n|n|n|n| |c m|m|m|m];
    try (apply control_server_status in H; congruence);
    try (destruct H as [_ H]; apply control_server_status in H; congruence).
  - destruct H as [_ H]. unfold control in H. congruence.
  - destruct H as (_ & _ & H). unfold control in H. congruence.
  - destruct c; try (apply control_server_status in H; congruence).
    + destruct (isAuthenticated (msg_user m) s) eqn:Ea;
        [|apply control_server_status in H; congruence].
      destruct (server_status s) eqn:Es;
        try (apply control_server_status in H; congruence).
      destruct (0 <? List.length (keys (listeners s)))%nat eqn:El;
        [|unfold control in H; congruence].
      apply keys_nil_iff in El. eauto.
    + destruct (isAuthenticated (msg_user m) s);
        [|apply control_server_status in H; congruence].
      destruct (server_status s) eqn:Es;
        try (apply control_server_status in H; congruence).
      unfold control in H. congruence.
Qed.

(** From CLOSING, the only event that leads to CLOSED is the ['close'] of
    the listener. *)
Lemma step_closing_to_closed (e : Event) (s s' : State) :
  step e s = Some s' ->
  server_status s = closing -> server_status s' = closed -> e = ServerClose.
Proof.
  intros H Hc Hd. apply step_control in H.
  destruct e as [| |n|n|n|n| |c m|m|m|m]; try reflexivity;
    try (apply control_server_status in H; congruence);
    try (destruct H as [_ H]; apply control_server_status in H; congruence).
  - destruct H as [_ H]. unfold control in H. congruence.
  - destruct c; try (apply control_server_status in H; congruence);
      destruct (isAuthenticated (msg_user m) s);
      try (apply control_server_status in H; congruence);
      rewrite Hc in H; apply control_server_status in H; congruence.
Qed.

(** *** Traces *)

Lemma run_app (a b : list Event) : forall s,
  run (a ++ b) s
  = match run a s with Some s' => run b s' | None => None end.
Proof.
  induction a as [|e r IH]; intro s; cbn; [reflexivity|].
  destruct (step e s); [apply IH | reflexivity].
Qed.

(** A property of states that every event keeps holds along every trace. *)
Lemma run_invariant (P : State -> Prop) :
  (forall e s s', P s -> step e s = Some s' -> P s') ->
  forall evs s s', P s -> run evs s = Some s' -> P s'.
Proof.
  intros Hstep evs. induction evs as [|e r IH]; intros s s' Hs H; cbn in H.
  - now injection H as <-.
  - destruct (step e s) as [s1|] eqn:E; [|discriminate].
    eapply IH; [|exact H]. eapply Hstep; eauto.
Qed.

Lemma init_settled (port data : string) : settled (init port data).
Proof. intros [H | H]; discriminate. Qed.

Lemma step_settled (e : Event) (s s' : State) :
  settled s -> step e s = Some s' -> settled s'.
Proof.
  unfold settled. intros Hs H. apply step_control in H.
  assert (Hsame : control s' = control s ->
                  server_status s' = listening \/ server_status s' = closing ->
                  listen_callbacks s' = []).
  { unfold control. intros E. injection E as E1 _ E3 _. now rewrite E1, E3. }
  destruct e as [| |n|n|n|n| |c m|m|m|m]; try (now apply Hsame).
  - destruct H as [_ H]. unfold control in H. injection H as _ _ E _. auto.
  - destruct H as (_ & _ & H). unfold control in H.
    injection H as E _ _ _. rewrite E. intros [? | ?]; discriminate.
  - destruct c; try (now apply Hsame);
      destruct (isAuthenticated (msg_user m) s); try (now apply Hsame);
      destruct (server_status s) eqn:Es; try (now apply Hsame).
    + unfold control in H. injection H as _ _ E _. rewrite E.
      intros _. apply Hs. now left.
    + unfold control in H. injection H as E _ _ _. rewrite E.
      intros [? | ?]; discriminate.
Qed.

Lemma reachable_settled (port data : string) (evs : list Event) (s : State) :
  run evs (init port data) = Some s -> settled s.
Proof.
  apply (run_invariant settled); [|apply init_settled].
  intros e s0 s1 H0 H1. eapply step_settled; eauto.
Qed.

(** C5.  Along every trace from the start of the program: a step enters
    CLOSING only from LISTENING, and only as the close-server task of an
    authenticated operator run while a connection is registered; and a step
    from CLOSING to CLOSED is the ['close'] of the listener (the callback
    passed to [netServer.close]), never a command.  Indeed the ['close'] of
    the listener is the only way out of CLOSING. *)
Theorem closing_transitions (port data : string) (evs : list Event)
    (s : State) (e : Event) (s' : State) :
  run evs (init port data) = Some s ->
  step e s = Some s' ->
  (server_status s' = closing -> server_status s <> closing ->
   server_status s = listening /\ listeners s <> []
   /\ exists m, e = Hears closeServer m
                /\ isAuthenticated (msg_user m) s = true)
  /\ (server_status s = closing -> server_status s' = closed ->
      e = ServerClose /\ forall c m, e <> Hears c m)
  /\ (server_status s = closing -> server_status s' <> closing ->
      e = ServerClose /\ server_status s' = closed).
Proof.
  intros Hrun H. split; [|split].
  - now apply step_into_closing.
  - intros Hc Hd. rewrite (step_closing_to_closed e s s' H Hc Hd).
    split; [reflexivity | discriminate].
  - intros Hc Hn.
    pose proof (reachable_settled _ _ _ _ Hrun (or_intror Hc)) as Hl.
    apply step_control in H.
    destruct e as [| |n|n|n|n| |c m|m|m|m];
      try (apply control_server_status in H; congruence).
    + now destruct H as [H _].
    + destruct H as [_ H]. apply control_server_status in H. congruence.
    + destruct H as (_ & _ & H). unfold control in H.
      injection H as E _ _ _. now split.
    + destruct c; try (apply control_server_status in H; congruence);
        destruct (isAuthenticated (msg_user m) s);
        try (apply control_server_status in H; congruence);
        rewrite Hc in H; apply control_server_status in H; congruence.
Qed.

Lemma closing_transitions_witness :
  run three_joined (init "9000" "U1") = Some three_clients
  /\ step (Hears closeServer boss) three_clients = Some closing_state
  /\ (server_status closing_state = closing ->
      server_status three_clients <> closing ->
      server_status three_clients = listening /\ listeners three_clients <> []
      /\ exists m, Hears closeServer boss = Hears closeServer m
                   /\ isAuthenticated (msg_user m) three_clients = true)
  /\ (server_status three_clients = closing ->
      server_status closing_state = closed ->
      Hears closeServer boss = ServerClose
      /\ forall c m, Hears closeServer boss <> Hears c m)
  /\ (server_status three_clients = closing ->
      server_status closing_state <> closing ->
      Hears closeServer boss = ServerClose
      /\ server_status closing_state = closed).
Proof.
  split; [evaluate|]. split; [evaluate|].
  apply (closing_transitions "9000" "U1" three_joined three_clients
           (Hears closeServer boss) closing_state); evaluate.
Defined.

(** *** Closing with no connection *)

Lemma string_app_assoc (a b c : string) :
  ((a ++ b) ++ c = a ++ (b ++ c))%string.
Proof. induction a as [|x a IH]; cbn; [reflexivity | now rewrite IH]. Qed.

Lemma listeners_forEach {A : Type} (f : A -> State -> State) (a : list A) :
  (forall x s, listeners (f x s) = listeners s) ->
  forall s, listeners (Js.forEach a f s) = listeners s.
Proof.
  intros H s.
  apply (forEach_preserves (fun s' => listeners s' = listeners s)); [|reflexivity].
  intros x s0 H0. now rewrite H.
Qed.

(** With an empty registry every task leaves the registry empty. *)
Lemma hears_listeners_nil (c : Command) (m : Message) (s : State) :
  listeners s = [] -> listeners (hears c m s) = [].
Proof.
  intro Hl.
  destruct c; cbn [hears]; unfold authenticatedTask, authenticate_handler,
    options_handler, status_task, endAll_task, pauseAll_task, resumeAll_task,
    closeServer_task, openServer_task, weird_state;
    rewrite ?Hl; cbn;
    try destruct (isAuthenticated (msg_user m) s); cbn;
    try destruct (server_status s); cbn; rewrite ?Hl; reflexivity.
Qed.

(** With an empty registry only a new connection fills it. *)
Lemma step_listeners_nil (e : Event) (s s' : State) :
  listeners s = [] -> step e s = Some s' -> e <> Connection ->
  listeners s' = [].
Proof.
  intros Hl H Hne.
  destruct e as [| |n|n|n|n| |c m|m|m|m]; cbn [step] in H;
    try (unfold registered in H; rewrite Hl in H; discriminate).
  - destruct (is_nil (listen_callbacks s)); [discriminate|].
    injection H as <-.
    rewrite listeners_forEach; [exact Hl | intros [|?] ?; reflexivity].
  - congruence.
  - destruct (_ && _); [|discriminate].
    injection H as <-.
    rewrite listeners_forEach; [exact Hl | reflexivity].
  - injection H as <-. now apply hears_listeners_nil.
  - destruct (existsb _ _); [|discriminate]. now injection H as <-.
  - destruct (existsb _ _); [|discriminate]. now injection H as <-.
  - injection H as <-. unfold ambient_handler.
    rewrite broadcast_listeners, Hl. reflexivity.
Qed.

Lemma shutting_down_step (e : Event) (s s' : State) :
  shutting_down s -> step e s = Some s' -> e <> ServerClose ->
  shutting_down s'.
Proof.
  intros (Hs & Hl & Ha & Hc) H Hne.
  assert (Hl' : listeners s' = []).
  { apply (step_listeners_nil e s s' Hl H).
    intros ->. cbn in H. rewrite Ha in H. discriminate. }
  assert (Hsame : control s' = control s -> shutting_down s').
  { unfold control. intro E. injection E as E1 E2 _ E4.
    unfold shutting_down. now rewrite E1, E2, E4. }
  apply step_control in H.
  destruct e as [| |n|n|n|n| |c m|m|m|m]; try (now apply Hsame).
  - destruct H as [_ H]. unfold control in H. injection H as E1 E2 _ E4.
    unfold shutting_down. now rewrite E1, E2, E4.
  - destruct c; try (now apply Hsame);
      destruct (isAuthenticated (msg_user m) s); try (now apply Hsame);
      rewrite Hs in H; try (now apply Hsame).
    rewrite Hl in H. cbn in H. unfold control in H.
    injection H as E1 E2 _ E4. unfold shutting_down.
    rewrite E1, E2, E4. repeat split; try assumption.
    now destruct (close_callbacks s).
Qed.

Lemma shutting_down_run (evs : list Event) : forall s s',
  shutting_down s -> ~ In ServerClose evs -> run evs s = Some s' ->
  shutting_down s'.
Proof.
  induction evs as [|e r IH]; intros s s' Hs Hn H; cbn in H.
  - now injection H as <-.
  - destruct (step e s) as [s1|] eqn:E; [|discriminate].
    apply (IH s1 s'); [|intro; apply Hn; now right | exact H].
    apply (shutting_down_step e s s1 Hs E). intros ->. apply Hn. now left.
Qed.

(** What [status] answers while the listener is shutting down. *)
Lemma status_while_shutting_down (m : Message) (s : State) :
  shutting_down s -> isAuthenticated (msg_user m) s = true ->
  last_reply (hears status_ m s)
  = Some ("Listener Port: "
          ++ match server_port s with Some p => p | None => "undefined" end
          ++ Js.nl ++ "Server Status: listening"
          ++ Js.nl ++ "Current Connections: 0")%string.
Proof.
  intros (Hs & Hl & _ & _) Ha.
  cbn [hears]. unfold authenticatedTask. rewrite Ha.
  unfold status_task. cbv zeta. rewrite last_reply_reply, Hl, Hs.
  cbn [keys map List.length Js.forEach fold_left ServerStatus_str].
  now rewrite !string_app_assoc.
Qed.

(** C6.  A close-server request of an authenticated operator, made while
    the server is LISTENING and no connection is registered, leaves the
    status at LISTENING; whatever is handled before the ['close'] of the
    listener, the status is still LISTENING, [status] reports
    ["listening"], never ["closing"]; and the ['close'] of the listener,
    which is deliverable, takes the status to CLOSED. *)
Theorem close_without_connections (s : State) (m : Message) :
  server_status s = listening ->
  listeners s = [] ->
  isAuthenticated (msg_user m) s = true ->
  exists s1,
    step (Hears closeServer m) s = Some s1
    /\ server_status s1 = listening
    /\ forall evs s2,
         ~ In ServerClose evs -> run evs s1 = Some s2 ->
         server_status s2 = listening
         /\ (forall m', isAuthenticated (msg_user m') s2 = true ->
               last_reply (hears status_ m' s2)
               = Some ("Listener Port: "
                       ++ match server_port s2 with
                          | Some p => p | None => "undefined" end
                       ++ Js.nl ++ "Server Status: listening"
                       ++ Js.nl ++ "Current Connections: 0")%string)
         /\ exists s3,
              step ServerClose s2 = Some s3 /\ server_status s3 = closed.
Proof.
  intros Hs Hl Ha.
  exists (hears closeServer m s).
  assert (H1 : step (Hears closeServer m) s = Some (hears closeServer m s))
    by reflexivity.
  assert (Hsd : shutting_down (hears closeServer m s)).
  { assert (Hc : control (hears closeServer m s)
                 = (listening, false, listen_callbacks s, close_callbacks s ++ [m])).
    { cbn [hears]. unfold authenticatedTask.
      now rewrite Ha, control_closeServer_task, Hs, Hl. }
    unfold control in Hc.
    injection Hc as E1 E2 _ E4. unfold shutting_down. cbn [hears].
    rewrite E1, E2, E4. repeat split.
    - now apply (hears_listeners_nil closeServer).
    - now destruct (close_callbacks s). }
  split; [exact H1|]. split; [apply Hsd|].
  intros evs s2 Hn Hrun.
  pose proof (shutting_down_run evs _ s2 Hsd Hn Hrun) as Hsd2.
  split; [apply Hsd2|]. split.
  - intros m' Ha'. now apply status_while_shutting_down.
  - destruct Hsd2 as (Hs2 & Hl2 & Ha2 & Hc2).
    exists (Js.forEach (close_callbacks s2) close_callback
              (set_close_callbacks [] s2)).
    split.
    + cbn [step]. rewrite Ha2.
      destruct (close_callbacks s2); [contradiction | reflexivity].
    + pose proof (control_close_callbacks (close_callbacks s2)
                    (set_close_callbacks [] s2)) as Hc.
      unfold control at 1 in Hc. injection Hc as E _ _ _. rewrite E.
      destruct (close_callbacks s2); [contradiction | reflexivity].
Qed.

Lemma close_without_connections_witness :
  server_status no_client = listening
  /\ listeners no_client = []
  /\ isAuthenticated (msg_user boss) no_client = true
  /\ exists s1,
       step (Hears closeServer boss) no_client = Some s1
       /\ server_status s1 = listening
       /\ forall evs s2,
            ~ In ServerClose evs -> run evs s1 = Some s2 ->
            server_status s2 = listening
            /\ (forall m', isAuthenticated (msg_user m') s2 = true ->
                  last_reply (hears status_ m' s2)
                  = Some ("Listener Port: "
                          ++ match server_port s2 with
                             | Some p => p | None => "undefined" end
                          ++ Js.nl ++ "Server Status: listening"
                          ++ Js.nl ++ "Current Connections: 0")%string)
            /\ exists s3,
                 step ServerClose s2 = Some s3 /\ server_status s3 = closed.
Proof.
  do 3 (split; [evaluate|]).
  apply (close_without_connections no_client boss); evaluate.
Defined.

Example close_without_connections_trace :
  option_map server_status
    (run [Hears closeServer boss; Hears status_ boss; Hears openServer boss]
       no_client) = Some listening
  /\ option_map server_status
       (run [Hears closeServer boss; Hears status_ boss; ServerClose]
          no_client) = Some closed
  /\ run [Hears closeServer boss; Connection] no_client = None.
Proof. split; [evaluate | split; evaluate]. Qed.

(** *** Requests made while the server is closing *)

(** C7, as the specification states it, fails here: with the server
    CLOSING, the replies to close-server and to open-server are not the
    strings of the specification (the program puts two spaces after
    ["closing."]). *)
Lemma closing_replies_differ :
  server_status closing_state = closing
  /\ isAuthenticated (msg_user boss) closing_state = true
  /\ new_replies closing_state (hears closeServer boss closing_state)
     <> ["Server is already closing. It will close after all listeners disconnect.";
         "Hint: you can tell me to 'end-all' to close all the listeners"]%string
  /\ new_replies closing_state (hears openServer boss closing_state)
     <> ["Server is currently closing. It will close after all listeners disconnect.";
         "Hint: you can tell me to 'end-all' to close all the listeners and then 'open-server' to open properly"]%string.
Proof.
  split; [evaluate|]. split; [evaluate|].
  split; vm_compute; discriminate.
Qed.

(** C7, amended.  With the server CLOSING, close-server and open-server of
    an authenticated operator change nothing and reply with the two texts
    below, which have two spaces after ["closing."]. *)
Theorem closing_replies (s : State) (m : Message) :
  isAuthenticated (msg_user m) s = true ->
  server_status s = closing ->
  hears closeServer m s
  = reply m "Hint: you can tell me to 'end-all' to close all the listeners"
      (reply m
         "Server is already closing.  It will close after all listeners disconnect."
         s)
  /\ hears openServer m s
     = reply m
         "Hint: you can tell me to 'end-all' to close all the listeners and then 'open-server' to open properly"
         (reply m
            "Server is currently closing.  It will close after all listeners disconnect."
            s).
Proof.
  intros Ha Hs. cbn [hears]. unfold authenticatedTask. rewrite Ha.
  unfold closeServer_task, openServer_task. now rewrite Hs.
Qed.

Lemma closing_replies_witness :
  isAuthenticated (msg_user boss) closing_state = true
  /\ server_status closing_state = closing
  /\ hears closeServer boss closing_state
     = reply boss "Hint: you can tell me to 'end-all' to close all the listeners"
         (reply boss
            "Server is already closing.  It will close after all listeners disconnect."
            closing_state)
  /\ hears openServer boss closing_state
     = reply boss
         "Hint: you can tell me to 'end-all' to close all the listeners and then 'open-server' to open properly"
         (reply boss
            "Server is currently closing.  It will close after all listeners disconnect."
            closing_state).
Proof.
  split; [evaluate|]. split; [evaluate|].
  apply (closing_replies closing_state boss); evaluate.
Defined.

(** ** The authentication gate *)

(** C9, as the specification states it, fails here: [options] is not the
    bootstrap command, the caller is not authenticated, and the request is
    answered with a command list instead of the refusal. *)
Lemma options_answers_a_stranger :
  isAuthenticated (msg_user stranger) three_clients = false
  /\ last_reply (hears options stranger three_clients)
     <> Some not_authenticated
  /\ last_reply (hears options stranger three_clients)
     = Some ("Command List:"
             ++ Js.nl ++ TAB ++ "options : Get a list of all availale commands"
             ++ Js.nl ++ TAB ++ "authenticate : Authenticate into the system")%string.
Proof.
  split; [evaluate|]. split; [vm_compute; discriminate | evaluate].
Qed.

(** C9, amended.  For a caller who is not authenticated, every command
    other than [authenticate] and [options] is refused with the fixed text
    and nothing else happens; [options] answers with the list of these two
    commands; for an authenticated caller the task of the command runs. *)
Theorem authentication_gate (c : Command) (m : Message) (s : State) :
  c <> authenticate -> c <> options ->
  (isAuthenticated (msg_user m) s = false ->
   hears c m s = reply m not_authenticated s
   /\ hears options m s
      = reply m
          ("Command List:"
           ++ Js.nl ++ TAB ++ "options : Get a list of all availale commands"
           ++ Js.nl ++ TAB ++ "authenticate : Authenticate into the system")%string
          s)
  /\ (isAuthenticated (msg_user m) s = true ->
      exists task, task_of c = Some task /\ hears c m s = task m s).
Proof.
  intros Hna Hno. split.
  - intro Ha. split.
    + destruct c; try congruence; cbn [hears]; unfold authenticatedTask;
        now rewrite Ha.
    + cbn [hears]. unfold options_handler. rewrite Ha. cbv zeta.
      f_equal.
  - intro Ha.
    destruct c; try congruence; cbn [hears task_of]; unfold authenticatedTask;
      rewrite Ha; eauto.
Qed.

Lemma authentication_gate_witness :
  endAll <> authenticate /\ endAll <> options
  /\ isAuthenticated (msg_user stranger) three_clients = false
  /\ hears endAll stranger three_clients
     = reply stranger not_authenticated three_clients
  /\ hears options stranger three_clients
     = reply stranger
         ("Command List:"
          ++ Js.nl ++ TAB ++ "options : Get a list of all availale commands"
          ++ Js.nl ++ TAB ++ "authenticate : Authenticate into the system")%string
         three_clients.
Proof.
  split; [discriminate|]. split; [discriminate|]. split; [evaluate|].
  apply (authentication_gate endAll stranger three_clients);
    [discriminate | discriminate | evaluate].
Defined.

Example gate_on_three_clients :
  isAuthenticated (msg_user stranger) three_clients = false
  /\ isAuthenticated (msg_user boss) three_clients = true
  /\ map (fun c => last_reply (hears c stranger three_clients))
       [status_; endAll; pauseAll; resumeAll; closeServer; openServer]
     = repeat (Some not_authenticated) 6
  /\ last_reply (hears endAll boss three_clients)
     = Some "Clients Terminated: 3"%string.
Proof. do 3 (split; [evaluate|]). evaluate. Qed.

(** ** End-all *)

Section EndAll.

(** The loop of the end-all task ends every transport and counts them. *)
Lemma endAll_loop (users : list string) : forall (s : State) (n : nat),
  Js.forEach users
    (fun user '(s, count) => (socket_end user s, count + 1)) (s, n)
  = (Js.forEach users socket_end s, n + List.length users).
Proof.
  unfold Js.forEach.
  induction users as [|u r IH]; intros s n; cbn [fold_left List.length].
  - now rewrite Nat.add_0_r.
  - rewrite IH. f_equal. lia.
Qed.

Lemma endAll_task_eq (m : Message) (s : State) :
  endAll_task m s
  = reply m
      ("Clients Terminated: " ++ Js.of_nat (List.length (listeners s)))%string
      (Js.forEach (keys (listeners s)) socket_end s).
Proof.
  unfold endAll_task. cbv zeta. rewrite endAll_loop.
  cbn [Nat.add]. unfold keys. now rewrite length_map.
Qed.

(** Ending the transports removes nothing from the registry. *)
Lemma keys_after_end (users : list string) (s : State) :
  keys (listeners (Js.forEach users socket_end s)) = keys (listeners s).
Proof.
  apply (forEach_preserves
           (fun s' => keys (listeners s') = keys (listeners s))); [|reflexivity].
  intros user s0 H. unfold socket_end. cbn [listeners set_listeners].
  now rewrite keys_update.
Qed.

Lemma authenticatedUsers_after_end (users : list string) (s : State) :
  authenticatedUsers (Js.forEach users socket_end s) = authenticatedUsers s.
Proof.
  now apply (forEach_preserves
               (fun s' => authenticatedUsers s' = authenticatedUsers s)).
Qed.

Lemma delete_absent (name : string) (l : Registry) :
  ~ In name (keys l) -> delete name l = l.
Proof.
  induction l as [|[n k] r IH]; [reflexivity|].
  cbn. intro H. destruct (String.eqb n name) eqn:E.
  - apply String.eqb_eq in E. tauto.
  - rewrite IH by tauto. reflexivity.
Qed.

(** Once the ['close'] of every registered socket is handled, the registry
    is empty. *)
Lemma run_closes (l : Registry) : forall s,
  keys (listeners s) = keys l -> NoDup (keys l) ->
  exists s',
    run (map SocketClose (keys l)) s = Some s'
    /\ listeners s' = []
    /\ authenticatedUsers s' = authenticatedUsers s.
Proof.
  induction l as [|[n k] r IH]; intros s Hk Hnd.
  - exists s. cbn in *. repeat split.
    now destruct (listeners s).
  - inversion Hnd as [|? ? Hn Hr]; subst.
    destruct (listeners s) as [|[n0 k0] r0] eqn:El; [discriminate|].
    cbn in Hk. injection Hk as -> Hk.
    change (keys r0 = keys r) in Hk.
    assert (Hreg : registered n s = true).
    { unfold registered. rewrite El. cbn. now rewrite String.eqb_refl. }
    destruct (IH (on_socket_close n s)) as (s' & Hrun & Hl & Hau).
    + unfold on_socket_close. cbn [listeners set_listeners log set_console].
      rewrite El. cbn [delete]. rewrite String.eqb_refl.
      rewrite delete_absent; [exact Hk | now rewrite Hk].
    + exact Hr.
    + exists s'. change (keys ((n, k) :: r)) with (n :: keys r).
      cbn [map run step]. rewrite Hreg. auto.
Qed.

End EndAll.

(** C8, as the specification states it, fails here: end-all is handled
    twice in a row, nothing in between, and the second reply counts the
    three connections again. *)
Lemma endAll_twice_in_a_row :
  option_map (new_replies three_clients)
    (run [Hears endAll boss; Hears endAll boss] three_clients)
  = Some ["Clients Terminated: 3"; "Clients Terminated: 3"]%string.
Proof. evaluate. Qed.

Example endAll_then_closes_then_endAll :
  option_map (new_replies three_clients)
    (run [Hears endAll boss; SocketClose "net#1"; SocketClose "net#0";
          SocketClose "net#2"; Hears endAll boss] three_clients)
  = Some ["Clients Terminated: 3"; "Clients Terminated: 0"]%string.
Proof. evaluate. Qed.

(** ** Reachable states *)

Section Reachable.

Lemma keys_set_cases (name : string) (k : Socket) (l : Registry) :
  (In name (keys l) /\ keys (set name k l) = keys l)
  \/ (~ In name (keys l) /\ keys (set name k l) = keys l ++ [name]).
Proof.
  induction l as [|[n k'] r IH].
  - right. cbn. tauto.
  - cbn [set]. destruct (String.eqb n name) eqn:E.
    + apply String.eqb_eq in E. subst. left. cbn. tauto.
    + apply String.eqb_neq in E.
      change (keys ((n, k') :: set name k r)) with (n :: keys (set name k r)).
      change (keys ((n, k') :: r)) with (n :: keys r).
      destruct IH as [[Hin Hk] | [Hin Hk]]; [left | right];
        rewrite Hk; cbn; tauto.
Qed.

Lemma NoDup_keys_set (name : string) (k : Socket) (l : Registry) :
  NoDup (keys l) -> NoDup (keys (set name k l)).
Proof.
  intro H. destruct (keys_set_cases name k l) as [[_ E] | [Hn E]]; rewrite E.
  - exact H.
  - apply NoDup_app; [exact H | repeat constructor; cbn; tauto|].
    intros x Hx [<- | []]. contradiction.
Qed.

Lemma In_keys_delete (name x : string) (l : Registry) :
  In x (keys (delete name l)) -> In x (keys l).
Proof.
  induction l as [|[n k] r IH]; [easy|].
  cbn [delete]. destruct (String.eqb n name); cbn; intuition.
Qed.

Lemma NoDup_keys_delete (name : string) (l : Registry) :
  NoDup (keys l) -> NoDup (keys (delete name l)).
Proof.
  induction l as [|[n k] r IH]; [easy|].
  intro H. inversion H as [|? ? Hn Hr]; subst.
  cbn [delete]. destruct (String.eqb n name); [now apply IH|].
  cbn. constructor; [|now apply IH].
  intro Hin. apply Hn. eapply In_keys_delete, Hin.
Qed.

Lemma keys_forEach {A : Type} (f : A -> State -> State) (a : list A) :
  (forall x s, keys (listeners (f x s)) = keys (listeners s)) ->
  forall s, keys (listeners (Js.forEach a f s)) = keys (listeners s).
Proof.
  intros H s.
  apply (forEach_preserves
           (fun s' => keys (listeners s') = keys (listeners s))); [|reflexivity].
  intros x s0 H0. now rewrite H.
Qed.

Lemma keys_forEach_counting {A : Type} (f : A -> State * nat -> State * nat)
    (a : list A) (s : State) (n : nat) :
  (forall x p, keys (listeners (fst (f x p))) = keys (listeners (fst p))) ->
  keys (listeners (fst (Js.forEach a f (s, n)))) = keys (listeners s).
Proof.
  intro H.
  apply (forEach_preserves
           (fun p => keys (listeners (fst p)) = keys (listeners s)));
    [|reflexivity].
  intros x p Hp. now rewrite H.
Qed.

Lemma keys_broadcast (message : Payload) (s : State) :
  keys (listeners (broadcast message s)) = keys (listeners s).
Proof.
  unfold broadcast. cbv zeta.
  rewrite keys_forEach by reflexivity.
  apply keys_forEach. intros user s0.
  destruct (status_is user running (listeners s0)); [|reflexivity].
  apply keys_forEach. intros line s1. apply keys_update.
Qed.

(** No command adds or removes a connection. *)
Lemma keys_hears (c : Command) (m : Message) (s : State) :
  keys (listeners (hears c m s)) = keys (listeners s).
Proof.
  destruct c; cbn [hears]; unfold authenticatedTask, authenticate_handler;
    try (destruct (isAuthenticated (msg_user m) s); cbn [negb]; try reflexivity).
  - rewrite endAll_task_eq. apply keys_after_end.
  - unfold pauseAll_task. cbv zeta. cbn [listeners reply set_replies].
    apply keys_forEach. intros user s0.
    destruct (status_is user running (listeners s0)); [|reflexivity].
    apply keys_update.
  - unfold resumeAll_task. cbv zeta.
    match goal with
    | |- context [Js.forEach ?a ?f (s, 0)] =>
        pose proof (keys_forEach_counting f a s 0) as H;
        destruct (Js.forEach a f (s, 0)) as [s1 count]
    end.
    cbn [fst listeners reply set_replies] in *. apply H.
    intros user [s0 n].
    destruct (status_is user paused (listeners s0)); [|reflexivity].
    apply keys_update.
  - unfold closeServer_task.
    destruct (server_status s); try reflexivity.
    now destruct (0 <? List.length (keys (listeners s)))%nat.
  - unfold openServer_task. now destruct (server_status s).
Qed.

Lemma step_NoDup (e : Event) (s s' : State) :
  NoDup (keys (listeners s)) -> step e s = Some s' ->
  NoDup (keys (listeners s')).
Proof.
  intros Hnd H.
  destruct e as [| |n|n|n|n| |c m|m|m|m]; cbn [step] in H.
  - destruct (is_nil (listen_callbacks s)); [discriminate|].
    injection H as <-.
    rewrite listeners_forEach; [exact Hnd | intros [|?] ?; reflexivity].
  - destruct (accepting s); [|discriminate]. injection H as <-.
    apply NoDup_keys_set, Hnd.
  - destruct (registered n s); [|discriminate]. now injection H as <-.
  - destruct (registered n s); [|discriminate]. injection H as <-.
    unfold on_socket_pause. cbn [listeners log set_console set_listeners].
    now rewrite keys_update.
  - destruct (registered n s); [|discriminate]. injection H as <-.
    unfold on_socket_resume. cbn [listeners log set_console set_listeners].
    now rewrite keys_update.
  - destruct (registered n s); [|discriminate]. injection H as <-.
    apply NoDup_keys_delete, Hnd.
  - destruct (_ && _); [|discriminate]. injection H as <-.
    rewrite listeners_forEach; [exact Hnd | reflexivity].
  - injection H as <-. now rewrite keys_hears.
  - destruct (existsb _ _); [|discriminate]. now injection H as <-.
  - destruct (existsb _ _); [|discriminate]. now injection H as <-.
  - injection H as <-. unfold ambient_handler. now rewrite keys_broadcast.
Qed.

(** In every state the program reaches, the nicknames in the registry are
    pairwise distinct. *)
Lemma reachable_NoDup (port data : string) (evs : list Event) (s : State) :
  run evs (init port data) = Some s -> NoDup (keys (listeners s)).
Proof.
  apply (run_invariant (fun s => NoDup (keys (listeners s)))).
  - intros e s0 s1 H0 H1. eapply step_NoDup; eauto.
  - constructor.
Qed.

End Reachable.

(** ** Nicknames are never reused *)

Section Nicknames.

Lemma of_nat_inj (i j : nat) : Js.of_nat i = Js.of_nat j -> i = j.
Proof.
  unfold Js.of_nat. intro H.
  apply Unsigned.to_uint_inj.
  apply (f_equal NilEmpty.uint_of_string) in H.
  rewrite !NilEmpty.usu in H. congruence.
Qed.

Lemma listenerID_forEach {A : Type} (f : A -> State -> State) (a : list A) :
  (forall x s, listenerID (f x s) = listenerID s) ->
  forall s, listenerID (Js.forEach a f s) = listenerID s.
Proof.
  intros H s.
  apply (forEach_preserves (fun s' => listenerID s' = listenerID s));
    [|reflexivity].
  intros x s0 H0. now rewrite H.
Qed.

Lemma listenerID_broadcast (message : Payload) (s : State) :
  listenerID (broadcast message s) = listenerID s.
Proof.
  unfold broadcast. cbv zeta.
  rewrite listenerID_forEach by reflexivity.
  apply listenerID_forEach. intros user s0.
  destruct (status_is user running (listeners s0)); [|reflexivity].
  now apply listenerID_forEach.
Qed.

Lemma listenerID_hears (c : Command) (m : Message) (s : State) :
  listenerID (hears c m s) = listenerID s.
Proof.
  destruct c; cbn [hears]; unfold authenticatedTask, authenticate_handler;
    try (destruct (isAuthenticated (msg_user m) s); cbn [negb]; try reflexivity).
  - rewrite endAll_task_eq. cbn [listenerID reply set_replies].
    now apply listenerID_forEach.
  - unfold pauseAll_task. cbv zeta. cbn [listenerID reply set_replies].
    apply listenerID_forEach. intros user s0.
    now destruct (status_is user running (listeners s0)).
  - unfold resumeAll_task. cbv zeta.
    match goal with
    | |- context [Js.forEach ?a ?f (s, 0)] =>
        pose proof (forEach_preserves
                      (fun p => listenerID (fst p) = listenerID s) f a) as H;
        specialize (fun Hf => H Hf (s, 0) eq_refl);
        destruct (Js.forEach a f (s, 0)) as [s1 count]
    end.
    cbn [fst listenerID reply set_replies] in *. apply H.
    intros user [s0 n] H0. cbn [fst] in *.
    now destruct (status_is user paused (listeners s0)).
  - unfold closeServer_task.
    destruct (server_status s); try reflexivity.
    now destruct (0 <? List.length (keys (listeners s)))%nat.
  - unfold openServer_task. now destruct (server_status s).
Qed.

Lemma step_named_below (e : Event) (s s' : State) :
  named_below s -> step e s = Some s' -> named_below s'.
Proof.
  unfold named_below. intros Hs H.
  assert (Hsame : keys (listeners s') = keys (listeners s) ->
                  listenerID s' = listenerID s ->
                  forall name, In name (keys (listeners s')) ->
                  exists i, (i < listenerID s')%nat
                            /\ name = ("net#" ++ Js.of_nat i)%string).
  { intros Ek Ei. rewrite Ek, Ei. exact Hs. }
  destruct e as [| |n|n|n|n| |c m|m|m|m]; cbn [step] in H.
  - destruct (is_nil (listen_callbacks s)); [discriminate|].
    injection H as <-. apply Hsame.
    + rewrite listeners_forEach; [reflexivity | intros [|?] ?; reflexivity].
    + rewrite listenerID_forEach; [reflexivity | intros [|?] ?; reflexivity].
  - destruct (accepting s); [|discriminate]. injection H as <-.
    unfold on_connection. cbv zeta.
    cbn [listeners listenerID log set_console set_listeners set_listenerID].
    intros name Hin.
    destruct (keys_set_cases ("net#" ++ Js.of_nat (listenerID s))%string
                (mkSocket ("net#" ++ Js.of_nat (listenerID s)) running [] false)
                (listeners s)) as [[_ E] | [_ E]]; rewrite E in Hin.
    + destruct (Hs name Hin) as (i & Hi & ->). exists i. split; [lia | easy].
    + apply in_app_iff in Hin. destruct Hin as [Hin | [<- | []]].
      * destruct (Hs name Hin) as (i & Hi & ->). exists i. split; [lia | easy].
      * exists (listenerID s). split; [lia | reflexivity].
  - destruct (registered n s); [|discriminate]. injection H as <-.
    now apply Hsame.
  - destruct (registered n s); [|discriminate]. injection H as <-.
    apply Hsame; [|reflexivity].
    unfold on_socket_pause. cbn [listeners log set_console set_listeners].
    apply keys_update.
  - destruct (registered n s); [|discriminate]. injection H as <-.
    apply Hsame; [|reflexivity].
    unfold on_socket_resume. cbn [listeners log set_console set_listeners].
    apply keys_update.
  - destruct (registered n s); [|discriminate]. injection H as <-.
    unfold on_socket_close.
    cbn [listeners listenerID log set_console set_listeners].
    intros name Hin. apply Hs. eapply In_keys_delete, Hin.
  - destruct (_ && _); [|discriminate]. injection H as <-. apply Hsame.
    + rewrite listeners_forEach; reflexivity.
    + rewrite listenerID_forEach; reflexivity.
  - injection H as <-. apply Hsame; [apply keys_hears | apply listenerID_hears].
  - destruct (existsb _ _); [|discriminate]. injection H as <-.
    now apply Hsame.
  - destruct (existsb _ _); [|discriminate]. injection H as <-.
    now apply Hsame.
  - injection H as <-. unfold ambient_handler.
    apply Hsame; [apply keys_broadcast | apply listenerID_broadcast].
Qed.

Lemma reachable_named_below (port data : string) (evs : list Event) (s : State) :
  run evs (init port data) = Some s -> named_below s.
Proof.
  apply (run_invariant named_below).
  - intros e s0 s1 H0 H1. eapply step_named_below; eauto.
  - intros name [].
Qed.

(** In every reachable state, an accepted connection gets a nickname that is
    not in the registry, and is registered after the others. *)
Lemma connection_is_fresh (port data : string) (evs : list Event)
    (s s' : State) :
  run evs (init port data) = Some s ->
  step Connection s = Some s' ->
  ~ In ("net#" ++ Js.of_nat (listenerID s))%string (keys (listeners s))
  /\ keys (listeners s')
     = keys (listeners s) ++ [("net#" ++ Js.of_nat (listenerID s))%string]
  /\ listenerID s' = S (listenerID s).
Proof.
  intros Hrun H. pose proof (reachable_named_below _ _ _ _ Hrun) as Hn.
  assert (Hfresh : ~ In ("net#" ++ Js.of_nat (listenerID s))%string
                        (keys (listeners s))).
  { intro Hin. destruct (Hn _ Hin) as (i & Hi & E).
    cbn in E. injection E as E. apply of_nat_inj in E. lia. }
  split; [exact Hfresh|].
  cbn [step] in H. destruct (accepting s); [|discriminate].
  injection H as <-. unfold on_connection. cbv zeta.
  cbn [listeners listenerID log set_console set_listeners set_listenerID].
  split; [|reflexivity].
  destruct (keys_set_cases ("net#" ++ Js.of_nat (listenerID s))%string
              (mkSocket ("net#" ++ Js.of_nat (listenerID s)) running [] false)
              (listeners s)) as [[Hin _] | [_ E]]; [contradiction | exact E].
Qed.

End Nicknames.

(** * Further properties of the relay *)

(** ** Pause-all, resume-all and broadcast together *)

Section PauseResume.

(** A loop on the concrete state followed through an abstraction of it. *)
Lemma forEach_simulation {A S T : Type} (abs : S -> T) (f : A -> S -> S)
    (g : A -> T -> T) (a : list A) :
  (forall x s, abs (f x s) = g x (abs s)) ->
  forall s, abs (Js.forEach a f s) = fold_left (fun t x => g x t) a (abs s).
Proof.
  intro H. unfold Js.forEach.
  induction a as [|x r IH]; intro s; cbn [fold_left]; [reflexivity|].
  now rewrite IH, H.
Qed.

(** The counting variant of [loop_map_status]: the sockets found in status
    [st] are changed by [F] and counted. *)
Lemma loop_count_status st (F : Socket -> Socket) (l2 : Registry) :
  forall (l1 : Registry) (n : nat),
  NoDup (keys l2) ->
  (forall name, In name (keys l2) -> ~ In name (keys l1)) ->
  fold_left
    (fun (p : Registry * nat) user =>
       if status_is user st (fst p) then (update user F (fst p), snd p + 1)
       else p)
    (keys l2) (l1 ++ l2, n)
  = (l1 ++ map_status st F l2, n + count_status st l2).
Proof.
  induction l2 as [|[u k] r IH]; intros l1 n Hnd Hdis.
  - cbn. now rewrite Nat.add_0_r.
  - inversion Hnd as [|? ? Hn Hr]; subst.
    assert (Hn1 : ~ In u (keys l1)) by (apply Hdis; now left).
    change (keys ((u, k) :: r)) with (u :: keys r).
    cbn [fold_left fst snd]. unfold status_is at 2.
    rewrite get_app_skip by exact Hn1. cbn [get]. rewrite String.eqb_refl.
    set (k' := if SocketStatus_eqb (status k) st then F k else k).
    set (c := if SocketStatus_eqb (status k) st then 1 else 0).
    assert (Hstep :
      (if SocketStatus_eqb (status k) st
       then (update u F (l1 ++ (u, k) :: r), n + 1)
       else (l1 ++ (u, k) :: r, n))
      = ((l1 ++ [(u, k')]) ++ r, n + c)).
    { subst k' c. destruct (SocketStatus_eqb (status k) st).
      - rewrite update_app_skip by exact Hn1. cbn [update].
        now rewrite String.eqb_refl, <- app_assoc.
      - now rewrite <- app_assoc, Nat.add_0_r. }
    rewrite Hstep, (IH (l1 ++ [(u, k')]) (n + c) Hr).
    + rewrite <- app_assoc. f_equal.
      unfold count_status. cbn [filter snd List.length app map_status map fst].
      subst c. destruct (SocketStatus_eqb (status k) st); cbn [List.length]; lia.
    + intros name Hin. rewrite keys_app, in_app_iff. cbn.
      intros [H | [H | []]].
      * apply (Hdis name); [now right | exact H].
      * subst. contradiction.
Qed.

(** Where no socket is in status [st], changing the sockets in status [st]
    changes nothing. *)
Lemma map_status_none st (F : Socket -> Socket) (l : Registry) :
  count_status st l = 0 -> map_status st F l = l.
Proof.
  unfold count_status, map_status.
  induction l as [|[n k] r IH]; [reflexivity|].
  cbn [filter map fst snd].
  destruct (SocketStatus_eqb (status k) st); cbn [List.length];
    [discriminate|].
  intro H. now rewrite IH.
Qed.

Lemma count_paused_after_pause (l : Registry) :
  count_status paused (map_status running (set_status paused) l)
  = List.length l.
Proof.
  unfold count_status, map_status.
  induction l as [|[n k] r IH]; [reflexivity|].
  cbn [map filter fst snd].
  destruct (status k) eqn:Ek; cbn; rewrite ?Ek; cbn; now rewrite IH.
Qed.

Lemma map_status_after_pause (F : Socket -> Socket) (l : Registry) :
  map_status paused F (map_status running (set_status paused) l)
  = map_sockets (fun k => F (set_status paused k)) l.
Proof.
  unfold map_status, map_sockets. rewrite map_map.
  apply map_ext. intros [n k]. cbn [fst snd].
  destruct k as [nn st w e]. destruct st; reflexivity.
Qed.

(** The resume-all task, on the registry and on the reply. *)
Lemma resumeAll_task_eq (m : Message) (s : State) :
  NoDup (keys (listeners s)) ->
  listeners (resumeAll_task m s)
  = map_status paused (set_status running) (listeners s)
  /\ last_reply (resumeAll_task m s)
     = Some ("Clients Resumed: "
             ++ Js.of_nat (count_status paused (listeners s)))%string.
Proof.
  intro Hnd. unfold resumeAll_task. cbv zeta.
  match goal with
  | |- context [Js.forEach ?a ?f (s, 0)] =>
      pose proof (forEach_simulation
                    (fun p : State * nat => (listeners (fst p), snd p)) f
                    (fun user (p : Registry * nat) =>
                       if status_is user paused (fst p)
                       then (update user (set_status running) (fst p), snd p + 1)
                       else p) a) as H;
      specialize (fun Hf => H Hf (s, 0));
      destruct (Js.forEach a f (s, 0)) as [s1 count]
  end.
  cbn [fst snd] in H.
  pose proof (loop_count_status paused (set_status running) (listeners s)
                [] 0 Hnd (fun _ _ (F : False) => F)) as L.
  cbn [app Nat.add] in L.
  assert (E : (listeners s1, count)
              = (map_status paused (set_status running) (listeners s),
                 count_status paused (listeners s))).
  { refine (eq_trans (H _) L). intros user [s0 n]. cbn [fst snd].
    now destruct (status_is user paused (listeners s0)). }
  injection E as E1 E2.
  split; [exact E1 | now rewrite last_reply_reply, E2].
Qed.

Lemma count_paused_after_resume (l : Registry) :
  count_status paused (map_status paused (set_status running) l) = 0.
Proof.
  unfold count_status, map_status.
  induction l as [|[n k] r IH]; [reflexivity|].
  cbn [map filter fst snd].
  destruct (status k) eqn:Ek; cbn; rewrite ?Ek; cbn; exact IH.
Qed.

Lemma count_running_after_resume (l : Registry) :
  count_status running (map_status paused (set_status running) l)
  = List.length l.
Proof.
  unfold count_status, map_status.
  induction l as [|[n k] r IH]; [reflexivity|].
  cbn [map filter fst snd].
  destruct (status k) eqn:Ek; cbn; rewrite ?Ek; cbn; now rewrite IH.
Qed.

End PauseResume.

(** X1.  Resume-all sets every paused connection to running, leaves the
    running ones, and replies with the number of connections that were
    paused. *)
Theorem resumeAll_counts_the_paused (m : Message) (s : State) :
  NoDup (keys (listeners s)) ->
  isAuthenticated (msg_user m) s = true ->
  listeners (hears resumeAll m s)
  = map_status paused (set_status running) (listeners s)
  /\ count_status paused (listeners (hears resumeAll m s)) = 0
  /\ count_status running (listeners (hears resumeAll m s))
     = List.length (listeners s)
  /\ last_reply (hears resumeAll m s)
     = Some ("Clients Resumed: "
             ++ Js.of_nat (count_status paused (listeners s)))%string.
Proof.
  intros Hnd Ha. cbn [hears]. unfold authenticatedTask. rewrite Ha.
  destruct (resumeAll_task_eq m s Hnd) as [E1 E2].
  rewrite E1. split; [reflexivity|].
  split; [apply count_paused_after_resume|].
  split; [apply count_running_after_resume | exact E2].
Qed.

Lemma resumeAll_counts_the_paused_witness :
  NoDup (keys (listeners one_paused))
  /\ isAuthenticated (msg_user boss) one_paused = true
  /\ listeners (hears resumeAll boss one_paused)
     = map_status paused (set_status running) (listeners one_paused)
  /\ count_status paused (listeners (hears resumeAll boss one_paused)) = 0
  /\ count_status running (listeners (hears resumeAll boss one_paused))
     = List.length (listeners one_paused)
  /\ last_reply (hears resumeAll boss one_paused)
     = Some ("Clients Resumed: "
             ++ Js.of_nat (count_status paused (listeners one_paused)))%string.
Proof.
  split; [distinct_keys|]. split; [evaluate|].
  apply (resumeAll_counts_the_paused boss one_paused);
    [distinct_keys | evaluate].
Defined.

(** ** Who is authenticated *)

Section Authentication.

Lemma includes_app (a b : list string) (u : string) :
  Js.includes (a ++ b) u = Js.includes a u || Js.includes b u.
Proof.
  induction a as [|x r IH]; [reflexivity|].
  cbn. now rewrite IH, orb_assoc.
Qed.

Lemma authenticatedUsers_forEach {A : Type} (f : A -> State -> State)
    (a : list A) :
  (forall x s, authenticatedUsers (f x s) = authenticatedUsers s) ->
  forall s, authenticatedUsers (Js.forEach a f s) = authenticatedUsers s.
Proof.
  intros H s.
  apply (forEach_preserves
           (fun s' => authenticatedUsers s' = authenticatedUsers s));
    [|reflexivity].
  intros x s0 H0. now rewrite H.
Qed.

Lemma authenticatedUsers_broadcast (message : Payload) (s : State) :
  authenticatedUsers (broadcast message s) = authenticatedUsers s.
Proof.
  unfold broadcast. cbv zeta.
  rewrite authenticatedUsers_forEach by reflexivity.
  apply authenticatedUsers_forEach. intros user s0.
  destruct (status_is user running (listeners s0)); [|reflexivity].
  now apply authenticatedUsers_forEach.
Qed.

(** No command changes the set of authenticated users. *)
Lemma authenticatedUsers_hears (c : Command) (m : Message) (s : State) :
  authenticatedUsers (hears c m s) = authenticatedUsers s.
Proof.
  destruct c; cbn [hears]; unfold authenticatedTask, authenticate_handler;
    try (destruct (isAuthenticated (msg_user m) s); cbn [negb]; try reflexivity).
  - rewrite endAll_task_eq. cbn [authenticatedUsers reply set_replies].
    now apply authenticatedUsers_forEach.
  - unfold pauseAll_task. cbv zeta. cbn [authenticatedUsers reply set_replies].
    apply authenticatedUsers_forEach. intros user s0.
    now destruct (status_is user running (listeners s0)).
  - unfold resumeAll_task. cbv zeta.
    match goal with
    | |- context [Js.forEach ?a ?f (s, 0)] =>
        pose proof (forEach_preserves
                      (fun p => authenticatedUsers (fst p) = authenticatedUsers s)
                      f a) as H;
        specialize (fun Hf => H Hf (s, 0) eq_refl);
        destruct (Js.forEach a f (s, 0)) as [s1 count]
    end.
    cbn [fst authenticatedUsers reply set_replies] in *. apply H.
    intros user [s0 n] H0. cbn [fst] in *.
    now destruct (status_is user paused (listeners s0)).
  - unfold closeServer_task.
    destruct (server_status s); try reflexivity.
    now destruct (0 <? List.length (keys (listeners s)))%nat.
  - unfold openServer_task. now destruct (server_status s).
Qed.

(** One event either leaves the authenticated users as they are, or is the
    good answer to a password question that was asked, and adds its user. *)
Lemma step_authenticatedUsers (e : Event) (s s' : State) :
  step e s = Some s' ->
  authenticatedUsers s' = authenticatedUsers s
  \/ exists m,
       e = GoodPassword m
       /\ existsb (Message_eqb m) (conversations s) = true
       /\ authenticatedUsers s' = authenticatedUsers s ++ [msg_user m].
Proof.
  intro H.
  destruct e as [| |n|n|n|n| |c m|m|m|m]; cbn [step] in H.
  - destruct (is_nil (listen_callbacks s)); [discriminate|].
    injection H as <-. left.
    rewrite authenticatedUsers_forEach;
      [reflexivity | intros [|?] ?; reflexivity].
  - destruct (accepting s); [|discriminate]. injection H as <-. now left.
  - destruct (registered n s); [|discriminate]. injection H as <-. now left.
  - destruct (registered n s); [|discriminate]. injection H as <-. now left.
  - destruct (registered n s); [|discriminate]. injection H as <-. now left.
  - destruct (registered n s); [|discriminate]. injection H as <-. now left.
  - destruct (_ && _); [|discriminate]. injection H as <-. left.
    rewrite authenticatedUsers_forEach; reflexivity.
  - injection H as <-. left. apply authenticatedUsers_hears.
  - destruct (existsb (Message_eqb m) (conversations s)) eqn:E; [|discriminate].
    injection H as <-. right. exists m. auto.
  - destruct (existsb _ _); [|discriminate]. injection H as <-. now left.
  - injection H as <-. left. apply authenticatedUsers_broadcast.
Qed.

End Authentication.

(** X2.  Authentication is never revoked: a user who is authenticated stays
    authenticated whatever happens afterwards. *)
Theorem authentication_is_kept (u : string) (evs : list Event) (s s' : State) :
  isAuthenticated u s = true ->
  run evs s = Some s' ->
  isAuthenticated u s' = true.
Proof.
  intros Ha Hrun.
  apply (run_invariant (fun s0 => isAuthenticated u s0 = true)) with evs s;
    [|exact Ha | exact Hrun].
  intros e s0 s1 H0 H1. unfold isAuthenticated in *.
  destruct (step_authenticatedUsers e s0 s1 H1) as [E | (m & _ & _ & E)];
    rewrite E; [exact H0|].
  rewrite includes_app, H0. reflexivity.
Qed.

Lemma authentication_is_kept_witness :
  isAuthenticated "U1" three_clients = true
  /\ run [Hears endAll boss; SocketClose "net#0"; Hears closeServer boss]
       three_clients
     = Some (state_of (run [Hears endAll boss; SocketClose "net#0";
                            Hears closeServer boss] three_clients))
  /\ isAuthenticated "U1"
       (state_of (run [Hears endAll boss; SocketClose "net#0";
                       Hears closeServer boss] three_clients)) = true.
Proof.
  split; [evaluate|]. split; [evaluate|].
  apply (authentication_is_kept "U1"
           [Hears endAll boss; SocketClose "net#0"; Hears closeServer boss]
           three_clients); evaluate.
Defined.

(** X3.  The only way to become authenticated is the good answer to the
    password question: if a user is not authenticated before a trace and is
    after it, the trace contains the good-password callback of a message of
    that user. *)
Theorem authentication_needs_the_password (u : string) (evs : list Event) :
  forall s s',
  isAuthenticated u s = false ->
  run evs s = Some s' ->
  isAuthenticated u s' = true ->
  exists m, In (GoodPassword m) evs /\ msg_user m = u.
Proof.
  induction evs as [|e r IH]; intros s s' Hn Hrun Ha; cbn [run] in Hrun.
  - injection Hrun as <-. congruence.
  - destruct (step e s) as [s1|] eqn:E; [|discriminate].
    destruct (isAuthenticated u s1) eqn:E1.
    + unfold isAuthenticated in *.
      destruct (step_authenticatedUsers e s s1 E) as [Eq | (m & -> & _ & Eq)];
        rewrite Eq in E1; [congruence|].
      rewrite includes_app, Hn in E1. cbn in E1.
      rewrite orb_false_r in E1. apply String.eqb_eq in E1.
      exists m. split; [now left | exact E1].
    + destruct (IH s1 s' E1 Hrun Ha) as (m & Hin & Hu).
      exists m. split; [now right | exact Hu].
Qed.

Lemma authentication_needs_the_password_witness :
  isAuthenticated "U9" three_clients = false
  /\ run [Hears authenticate stranger; GoodPassword stranger] three_clients
     = Some (state_of (run [Hears authenticate stranger; GoodPassword stranger]
                         three_clients))
  /\ isAuthenticated "U9"
       (state_of (run [Hears authenticate stranger; GoodPassword stranger]
                    three_clients)) = true
  /\ exists m,
       In (GoodPassword m) [Hears authenticate stranger; GoodPassword stranger]
       /\ msg_user m = "U9"%string.
Proof.
  split; [evaluate|]. split; [evaluate|]. split; [evaluate|].
  apply (authentication_needs_the_password "U9"
           [Hears authenticate stranger; GoodPassword stranger]
           three_clients
           (state_of (run [Hears authenticate stranger; GoodPassword stranger]
                        three_clients))); evaluate.
Defined.

(** ** Broadcast after pause-all and after resume-all *)

(** X4.  After pause-all a broadcast reaches no connection: every
    registered connection is paused and what was written to it is what had
    been written before; only the console gets the lines. *)
Theorem broadcast_after_pauseAll (m : Message) (p : Payload) (s : State) :
  NoDup (keys (listeners s)) ->
  isAuthenticated (msg_user m) s = true ->
  listeners (broadcast p (hears pauseAll m s)) = listeners (hears pauseAll m s)
  /\ listeners (hears pauseAll m s)
     = map_status running (set_status paused) (listeners s)
  /\ (forall name k,
        get name (listeners s) = Some k ->
        exists k',
          get name (listeners (broadcast p (hears pauseAll m s))) = Some k'
          /\ written k' = written k /\ status k' = paused)
  /\ console (broadcast p (hears pauseAll m s))
     = console (hears pauseAll m s) ++ map Plain (send_of p).
Proof.
  intros Hnd Ha. cbn [hears]. unfold authenticatedTask. rewrite Ha.
  destruct (pauseAll_task_spec m s Hnd) as (E & Hc & _).
  assert (Hnd' : NoDup (keys (listeners (pauseAll_task m s))))
    by (now rewrite E, keys_map_status).
  rewrite (broadcast_eq p _ Hnd').
  cbn [listeners console set_console set_listeners].
  rewrite (map_status_none running _ _ Hc).
  split; [reflexivity|]. split; [exact E|]. split; [|reflexivity].
  intros name k Hget. rewrite E, get_map_status, Hget. cbn [option_map].
  eexists. split; [reflexivity|].
  destruct (status k) eqn:Ek; cbn; auto.
Qed.

Lemma broadcast_after_pauseAll_witness :
  NoDup (keys (listeners one_paused))
  /\ isAuthenticated (msg_user boss) one_paused = true
  /\ listeners (broadcast hello_world (hears pauseAll boss one_paused))
     = listeners (hears pauseAll boss one_paused)
  /\ listeners (hears pauseAll boss one_paused)
     = map_status running (set_status paused) (listeners one_paused)
  /\ (forall name k,
        get name (listeners one_paused) = Some k ->
        exists k',
          get name (listeners (broadcast hello_world
                                 (hears pauseAll boss one_paused))) = Some k'
          /\ written k' = written k /\ status k' = paused)
  /\ console (broadcast hello_world (hears pauseAll boss one_paused))
     = console (hears pauseAll boss one_paused)
       ++ map Plain (send_of hello_world).
Proof.
  split; [distinct_keys|]. split; [evaluate|].
  apply (broadcast_after_pauseAll boss hello_world one_paused);
    [distinct_keys | evaluate].
Defined.

(** X5.  Resume-all after pause-all restores full delivery: resume-all
    replies with the number of registered connections, and the next
    broadcast writes its lines to every one of them. *)
Theorem broadcast_after_pause_and_resume (m : Message) (p : Payload)
    (s : State) :
  NoDup (keys (listeners s)) ->
  isAuthenticated (msg_user m) s = true ->
  last_reply (hears resumeAll m (hears pauseAll m s))
  = Some ("Clients Resumed: " ++ Js.of_nat (List.length (listeners s)))%string
  /\ listeners (broadcast p (hears resumeAll m (hears pauseAll m s)))
     = map_sockets (fun k => deliver (send_of p) (set_status running k))
         (listeners s).
Proof.
  intros Hnd Ha.
  assert (Ha1 : isAuthenticated (msg_user m) (hears pauseAll m s) = true).
  { unfold isAuthenticated. now rewrite authenticatedUsers_hears. }
  assert (E1 : listeners (hears pauseAll m s)
               = map_status running (set_status paused) (listeners s)).
  { cbn [hears]. unfold authenticatedTask. rewrite Ha.
    apply (pauseAll_task_spec m s Hnd). }
  assert (Hnd1 : NoDup (keys (listeners (hears pauseAll m s))))
    by (now rewrite E1, keys_map_status).
  destruct (resumeAll_task_eq m (hears pauseAll m s) Hnd1) as [E2 R2].
  assert (Eh : hears resumeAll m (hears pauseAll m s)
               = resumeAll_task m (hears pauseAll m s)).
  { cbn [hears]. unfold authenticatedTask at 1.
    fold (hears pauseAll m s). now rewrite Ha1. }
  rewrite Eh. split.
  - rewrite R2, E1, count_paused_after_pause. reflexivity.
  - assert (Hnd2 : NoDup (keys (listeners (resumeAll_task m (hears pauseAll m s)))))
      by (now rewrite E2, keys_map_status).
    rewrite (broadcast_eq p _ Hnd2).
    cbn [listeners set_console set_listeners].
    rewrite E2, E1, map_status_after_pause.
    unfold map_status, map_sockets. rewrite map_map.
    apply map_ext. intros [n k]. reflexivity.
Qed.

Lemma broadcast_after_pause_and_resume_witness :
  NoDup (keys (listeners one_paused))
  /\ isAuthenticated (msg_user boss) one_paused = true
  /\ last_reply (hears resumeAll boss (hears pauseAll boss one_paused))
     = Some ("Clients Resumed: "
             ++ Js.of_nat (List.length (listeners one_paused)))%string
  /\ listeners (broadcast hello_world
                  (hears resumeAll boss (hears pauseAll boss one_paused)))
     = map_sockets (fun k => deliver (send_of hello_world) (set_status running k))
         (listeners one_paused).
Proof.
  split; [distinct_keys|]. split; [evaluate|].
  apply (broadcast_after_pause_and_resume boss hello_world one_paused);
    [distinct_keys | evaluate].
Defined.

(** ** The status text *)

Section StatusText.

Lemma string_app_nil_r (a : string) : (a ++ "")%string = a.
Proof. induction a as [|c a IH]; cbn; [reflexivity | now rewrite IH]. Qed.

(** With distinct nicknames, a nickname leads to its own socket. *)
Lemma get_own (l : Registry) (n : string) (k : Socket) :
  NoDup (keys l) -> In (n, k) l -> get n l = Some k.
Proof.
  induction l as [|[n0 k0] r IH]; [easy|].
  intros Hnd [H | H].
  - injection H as -> ->. cbn. now rewrite String.eqb_refl.
  - inversion Hnd as [|? ? Hn Hr]; subst. cbn.
    destruct (String.eqb n0 n) eqn:E; [|now apply IH].
    apply String.eqb_eq in E. subst. exfalso. apply Hn.
    change n with (fst (n, k)). now apply in_map.
Qed.

(** The loop of the status task adds one line per connection. *)
Lemma status_lines_loop (l : Registry) (part : Registry) : forall out,
  NoDup (keys l) -> (forall e, In e part -> In e l) ->
  Js.forEach (keys part)
    (fun user out =>
       (out ++ Js.nl ++ TAB ++ user ++ " is "
        ++ match get user l with
           | Some k => SocketStatus_str (status k)
           | None => "undefined"
           end)%string) out
  = (out ++ concat_strings (map status_line part))%string.
Proof.
  intros out Hnd. revert out. unfold Js.forEach.
  induction part as [|[n k] r IH]; intros out Hin; cbn [keys map fold_left fst].
  - cbn. now rewrite string_app_nil_r.
  - fold (keys r). rewrite IH by (intros e He; apply Hin; now right).
    rewrite (get_own l n k Hnd) by (apply Hin; now left).
    cbn [concat_strings fold_right]. fold (concat_strings (map status_line r)).
    unfold status_line at 2. cbn [fst snd].
    now rewrite !string_app_assoc.
Qed.

End StatusText.

(** X6.  The status text is the port, the server status and the number of
    connections, followed by one line per registered connection, in the
    order in which the connections joined, giving its nickname and its
    state; the request changes nothing else. *)
Theorem status_text (m : Message) (s : State) :
  NoDup (keys (listeners s)) ->
  isAuthenticated (msg_user m) s = true ->
  hears status_ m s
  = reply m
      ("Listener Port: "
       ++ match server_port s with Some p => p | None => "undefined" end
       ++ Js.nl ++ "Server Status: " ++ ServerStatus_str (server_status s)
       ++ Js.nl ++ "Current Connections: "
       ++ Js.of_nat (List.length (listeners s))
       ++ concat_strings (map status_line (listeners s)))%string
      s.
Proof.
  intros Hnd Ha. cbn [hears]. unfold authenticatedTask. rewrite Ha.
  unfold status_task. cbv zeta. f_equal.
  rewrite (status_lines_loop (listeners s) (listeners s) _ Hnd (fun e H => H)).
  unfold keys. rewrite length_map. now rewrite !string_app_assoc.
Qed.

Lemma status_text_witness :
  NoDup (keys (listeners one_paused))
  /\ isAuthenticated (msg_user boss) one_paused = true
  /\ hears status_ boss one_paused
     = reply boss
         ("Listener Port: "
          ++ match server_port one_paused with
             | Some p => p | None => "undefined" end
          ++ Js.nl ++ "Server Status: "
          ++ ServerStatus_str (server_status one_paused)
          ++ Js.nl ++ "Current Connections: "
          ++ Js.of_nat (List.length (listeners one_paused))
          ++ concat_strings (map status_line (listeners one_paused)))%string
         one_paused.
Proof.
  split; [distinct_keys|]. split; [evaluate|].
  apply (status_text boss one_paused); [distinct_keys | evaluate].
Defined.

Example status_text_one_paused :
  last_reply (hears status_ boss one_paused)
  = Some ("Listener Port: 9000" ++ Js.nl
          ++ "Server Status: listening" ++ Js.nl
          ++ "Current Connections: 3"
          ++ Js.nl ++ TAB ++ "net#0 is running"
          ++ Js.nl ++ TAB ++ "net#1 is paused"
          ++ Js.nl ++ TAB ++ "net#2 is running")%string.
Proof. evaluate. Qed.

(** ** Closing while connections are open *)

Section Closing.

Lemma new_replies_app (s s' : State) (added : list (Message * string)) :
  replies s' = replies s ++ added -> new_replies s s' = map snd added.
Proof.
  intro E. unfold new_replies. rewrite E, map_app.
  rewrite <- (length_map snd (replies s)).
  rewrite skipn_app, skipn_all, Nat.sub_diag. reflexivity.
Qed.

Lemma skipn_map_snd_app (a b : list (Message * string)) :
  skipn (List.length a) (map snd (a ++ b)) = map snd b.
Proof.
  rewrite map_app, <- (length_map snd a).
  now rewrite skipn_app, skipn_all, Nat.sub_diag.
Qed.

Lemma last_reply_close_callbacks (cbs : list Message) : forall s,
  cbs <> [] ->
  last_reply (Js.forEach cbs close_callback s)
  = Some "Server Successfully closed"%string.
Proof.
  unfold Js.forEach.
  induction cbs as [|cb r IH]; intros s Hne; [contradiction|].
  cbn [fold_left]. destruct r as [|cb' r'].
  - cbn [fold_left]. unfold close_callback.
    change (last_reply (set_server_status closed ?x)) with (last_reply x).
    apply last_reply_reply.
  - apply IH. discriminate.
Qed.

Lemma closing_down_step (e : Event) (s s' : State) :
  closing_down s -> step e s = Some s' -> e <> ServerClose ->
  closing_down s' /\ e <> Connection.
Proof.
  intros (Hs & Ha & Hl & Hc) H Hne.
  assert (Hsame : control s' = control s -> closing_down s').
  { unfold control. intro E. injection E as E1 E2 E3 E4.
    unfold closing_down. now rewrite E1, E2, E3, E4. }
  apply step_control in H.
  destruct e as [| |n|n|n|n| |c m|m|m|m];
    try (split; [now apply Hsame | discriminate]).
  - destruct H as [H _]. congruence.
  - split; [|discriminate].
    destruct c; try (now apply Hsame);
      destruct (isAuthenticated (msg_user m) s); try (now apply Hsame);
      rewrite Hs in H; now apply Hsame.
Qed.

Lemma closing_down_run (evs : list Event) : forall s s',
  closing_down s -> ~ In ServerClose evs -> run evs s = Some s' ->
  closing_down s' /\ ~ In Connection evs.
Proof.
  induction evs as [|e r IH]; intros s s' Hs Hn H; cbn [run] in H.
  - injection H as <-. split; [exact Hs | easy].
  - destruct (step e s) as [s1|] eqn:E; [|discriminate].
    destruct (closing_down_step e s s1 Hs E) as [Hs1 Hne].
    { intros ->. apply Hn. now left. }
    destruct (IH s1 s' Hs1) as [Hs' Hnc]; [intro; apply Hn; now right | exact H|].
    split; [exact Hs'|]. intros [Hc | Hc]; [congruence | contradiction].
Qed.

(** The close-server task on a listening server with connections. *)
Lemma closeServer_with_connections (m : Message) (s : State) :
  server_status s = listening -> listeners s <> [] ->
  closeServer_task m s
  = server_close m
      (reply m "Hint: telling me to 'end-all' should end it now"
         (reply m "Server will remain open until all listeners disconnect"
            (reply m "Attempting to Close Server"
               (set_server_status closing s)))).
Proof.
  intros Hs Hl. unfold closeServer_task. rewrite Hs.
  apply keys_nil_iff in Hl. now rewrite Hl.
Qed.

End Closing.

(** X9.  Closing an idle server and opening it again: with no connection
    and no callback waiting, close-server, the ['close'] of the listener,
    open-server and the ['listening'] of the listener bring the server back
    to LISTENING and accepting, with the two replies "closed" and "opened"
    and with the registry, the counter of nicknames and the authenticated
    users untouched.  In between, open-server alone leaves the status at
    CLOSED: it is the ['listening'] callback that sets LISTENING. *)
Theorem close_and_reopen (s : State) (m : Message) :
  server_status s = listening ->
  listeners s = [] ->
  close_callbacks s = [] ->
  listen_callbacks s = [] ->
  isAuthenticated (msg_user m) s = true ->
  exists s3 s4,
    run [Hears closeServer m; ServerClose; Hears openServer m] s = Some s3
    /\ server_status s3 = closed
    /\ accepting s3 = true
    /\ new_replies s s3 = ["Server Successfully closed"]%string
    /\ step Listening s3 = Some s4
    /\ server_status s4 = listening
    /\ accepting s4 = true
    /\ new_replies s s4
       = ["Server Successfully closed"; "Server Successfully opened"]%string
    /\ listeners s4 = []
    /\ listenerID s4 = listenerID s
    /\ authenticatedUsers s4 = authenticatedUsers s
    /\ listen_callbacks s4 = [] /\ close_callbacks s4 = [].
Proof.
  intros Hs Hl Hc Hli Ha.
  destruct s as [port lid l st sp au co re cv uf ac lcb ccb].
  cbn in Hs, Hl, Hc, Hli. subst.
  unfold isAuthenticated in Ha. cbn [authenticatedUsers msg_user] in Ha.
  cbn [run step hears]. unfold authenticatedTask, isAuthenticated.
  cbn [authenticatedUsers closeServer_task server_status]. rewrite Ha.
  cbn. rewrite Ha. cbn.
  eexists. eexists. split; [reflexivity|].
  unfold new_replies. cbn.
  rewrite ?skipn_map_snd_app.
  do 4 (split; [reflexivity|]). cbn.
  rewrite <- app_assoc, skipn_map_snd_app.
  repeat split.
Qed.

Lemma close_and_reopen_witness :
  server_status no_client = listening
  /\ listeners no_client = []
  /\ close_callbacks no_client = []
  /\ listen_callbacks no_client = []
  /\ isAuthenticated (msg_user boss) no_client = true
  /\ exists s3 s4,
       run [Hears closeServer boss; ServerClose; Hears openServer boss]
         no_client = Some s3
       /\ server_status s3 = closed
       /\ accepting s3 = true
       /\ new_replies no_client s3 = ["Server Successfully closed"]%string
       /\ step Listening s3 = Some s4
       /\ server_status s4 = listening
       /\ accepting s4 = true
       /\ new_replies no_client s4
          = ["Server Successfully closed"; "Server Successfully opened"]%string
       /\ listeners s4 = []
       /\ listenerID s4 = listenerID no_client
       /\ authenticatedUsers s4 = authenticatedUsers no_client
       /\ listen_callbacks s4 = [] /\ close_callbacks s4 = [].
Proof.
  do 5 (split; [evaluate|]).
  apply (close_and_reopen no_client boss); evaluate.
Defined.

(** ** Lines on the wire and in the file of users *)

Section LinesRoundTrip.

Lemma has_nl_app (a b : string) :
  Js.has_nl (a ++ b)%string = Js.has_nl a || Js.has_nl b.
Proof.
  induction a as [|c a IH]; [reflexivity|].
  cbn. now rewrite IH, orb_assoc.
Qed.

(** Splitting distributes over a line feed. *)
Lemma split_nl_app_nl (a b : string) :
  Js.split_nl (a ++ Js.nl ++ b)%string = Js.split_nl a ++ Js.split_nl b.
Proof.
  induction a as [|c a IH]; [reflexivity|].
  change (String c a ++ Js.nl ++ b)%string
    with (String c (a ++ Js.nl ++ b))%string.
  rewrite !split_nl_cons, IH.
  destruct (Ascii.eqb c Js.LF); [reflexivity|].
  pose proof (split_nl_not_nil a) as Hne.
  destruct (Js.split_nl a); [contradiction | reflexivity].
Qed.

(** A string without line feed is one line. *)
Lemma split_nl_one_line (u : string) :
  Js.has_nl u = false -> Js.split_nl u = [u].
Proof.
  induction u as [|c u IH]; [reflexivity|].
  cbn [Js.has_nl]. intro H. apply orb_false_iff in H. destruct H as [Hc Hu].
  rewrite split_nl_cons, Hc, (IH Hu). reflexivity.
Qed.

(** Lines without line feed, each followed by a line feed and written one
    after the other, split back into the same lines and an empty rest. *)
Lemma split_nl_concat_lines (L : list string) :
  Forall (fun line => Js.has_nl line = false) L ->
  Js.split_nl (concat_strings (map terminate L)) = L ++ [""%string].
Proof.
  induction L as [|x r IH]; intro H; [reflexivity|].
  inversion H as [|? ? Hx Hr]; subst.
  cbn [map concat_strings fold_right]. fold (concat_strings (map terminate r)).
  unfold terminate at 1. rewrite string_app_assoc, split_nl_app_nl.
  now rewrite (split_nl_one_line x Hx), (IH Hr).
Qed.

Lemma concat_lines_join (L : list string) :
  L <> [] ->
  concat_strings (map terminate L) = (Js.join Js.nl L ++ Js.nl)%string.
Proof.
  induction L as [|x r IH]; [contradiction|]. intros _.
  cbn [map concat_strings fold_right]. fold (concat_strings (map terminate r)).
  destruct r as [|y r'].
  - cbn. unfold terminate. now rewrite string_app_nil_r.
  - rewrite IH by discriminate.
    change (Js.join Js.nl (x :: y :: r'))
      with (x ++ Js.nl ++ Js.join Js.nl (y :: r'))%string.
    unfold terminate. now rewrite !string_app_assoc.
Qed.

Lemma ends_with_nl_split (data : string) :
  ends_with_nl data = true -> exists d, data = (d ++ Js.nl)%string.
Proof.
  induction data as [|c r IH]; [discriminate|].
  destruct r as [|c' r'].
  - cbn. intro H. apply Ascii.eqb_eq in H. subst. now exists ""%string.
  - intro H. destruct (IH H) as [d E]. exists (String c d). cbn [String.append].
    now rewrite <- E.
Qed.

(** The lines of a payload with a clean header contain no line feed. *)
Lemma send_of_no_nl (message : Payload) :
  clean_header message ->
  Forall (fun line => Js.has_nl line = false) (send_of message).
Proof.
  destruct message as [text | channel user text |]; intro H.
  - apply split_nl_no_nl.
  - destruct H as [Hc Hu]. unfold send_of. rewrite forEach_push_map.
    cbn [app]. apply Forall_map.
    eapply Forall_impl; [|apply split_nl_no_nl].
    intros line Hl. cbn beta in *.
    now rewrite !has_nl_app, Hc, Hu, Hl.
  - constructor.
Qed.

Lemma users_file_forEach {A : Type} (f : A -> State -> State) (a : list A) :
  (forall x s, users_file (f x s) = users_file s) ->
  forall s, users_file (Js.forEach a f s) = users_file s.
Proof.
  intros H s.
  apply (forEach_preserves (fun s' => users_file s' = users_file s));
    [|reflexivity].
  intros x s0 H0. now rewrite H.
Qed.

Lemma users_file_broadcast (message : Payload) (s : State) :
  users_file (broadcast message s) = users_file s.
Proof.
  unfold broadcast. cbv zeta.
  rewrite users_file_forEach by reflexivity.
  apply users_file_forEach. intros user s0.
  destruct (status_is user running (listeners s0)); [|reflexivity].
  now apply users_file_forEach.
Qed.

Lemma users_file_hears (c : Command) (m : Message) (s : State) :
  users_file (hears c m s) = users_file s.
Proof.
  destruct c; cbn [hears]; unfold authenticatedTask, authenticate_handler;
    try (destruct (isAuthenticated (msg_user m) s); cbn [negb]; try reflexivity).
  - rewrite endAll_task_eq. cbn [users_file reply set_replies].
    now apply users_file_forEach.
  - unfold pauseAll_task. cbv zeta. cbn [users_file reply set_replies].
    apply users_file_forEach. intros user s0.
    now destruct (status_is user running (listeners s0)).
  - unfold resumeAll_task. cbv zeta.
    match goal with
    | |- context [Js.forEach ?a ?f (s, 0)] =>
        pose proof (forEach_preserves
                      (fun p => users_file (fst p) = users_file s) f a) as H;
        specialize (fun Hf => H Hf (s, 0) eq_refl);
        destruct (Js.forEach a f (s, 0)) as [s1 count]
    end.
    cbn [fst users_file reply set_replies] in *. apply H.
    intros user [s0 n] H0. cbn [fst] in *.
    now destruct (status_is user paused (listeners s0)).
  - unfold closeServer_task.
    destruct (server_status s); try reflexivity.
    now destruct (0 <? List.length (keys (listeners s)))%nat.
  - unfold openServer_task. now destruct (server_status s).
Qed.

(** The file follows the list: a good password adds the user to both, and
    nothing else touches either. *)
Lemma step_users_file (e : Event) (s s' : State) :
  step e s = Some s' ->
  (authenticatedUsers s' = authenticatedUsers s
   /\ users_file s' = users_file s)
  \/ exists m,
       e = GoodPassword m
       /\ authenticatedUsers s' = authenticatedUsers s ++ [msg_user m]
       /\ users_file s' = users_file s ++ [terminate (msg_user m)].
Proof.
  intro H.
  destruct (step_authenticatedUsers e s s' H) as [E | (m & -> & _ & E)].
  - left. split; [exact E|].
    destruct e as [| |n|n|n|n| |c m|m|m|m]; cbn [step] in H.
    + destruct (is_nil (listen_callbacks s)); [discriminate|].
      injection H as <-.
      rewrite users_file_forEach; [reflexivity | intros [|?] ?; reflexivity].
    + destruct (accepting s); [|discriminate]. now injection H as <-.
    + destruct (registered n s); [|discriminate]. now injection H as <-.
    + destruct (registered n s); [|discriminate]. now injection H as <-.
    + destruct (registered n s); [|discriminate]. now injection H as <-.
    + destruct (registered n s); [|discriminate]. now injection H as <-.
    + destruct (_ && _); [|discriminate]. injection H as <-.
      rewrite users_file_forEach; reflexivity.
    + injection H as <-. apply users_file_hears.
    + destruct (existsb _ _); [|discriminate]. injection H as <-.
      cbn in E. exfalso. clear -E.
      apply (f_equal (@List.length string)) in E.
      unfold Js.push in E. rewrite length_app in E. cbn in E. lia.
    + destruct (existsb _ _); [|discriminate]. now injection H as <-.
    + injection H as <-. apply users_file_broadcast.
  - right. exists m. split; [reflexivity|]. split; [exact E|].
    cbn [step] in H. destruct (existsb _ _); [|discriminate].
    now injection H as <-.
Qed.

(** Along a trace from start-up, the users are the lines read from the file
    followed by the users added, and the file got these, one per line. *)
Lemma run_users_file (port data : string) (evs : list Event) :
  clean_passwords evs ->
  forall s, run evs (init port data) = Some s ->
  exists added,
    authenticatedUsers s = Js.split_nl data ++ added
    /\ users_file s = map terminate added
    /\ Forall (fun line => Js.has_nl line = false) added.
Proof.
  induction evs as [|e r IH] using rev_ind; intros Hclean s Hrun.
  - injection Hrun as <-. exists []. cbn. rewrite app_nil_r. auto.
  - rewrite run_app in Hrun.
    destruct (run r (init port data)) as [s0|] eqn:E0; [|discriminate].
    cbn [run] in Hrun.
    destruct (step e s0) as [s1|] eqn:E1; [|discriminate].
    injection Hrun as <-.
    destruct (IH (fun m Hin => Hclean m (in_or_app _ _ _ (or_introl Hin)))
                s0 eq_refl) as (added & Ha & Hf & Hn).
    destruct (step_users_file e s0 s1 E1) as [[Ea Ef] | (m & -> & Ea & Ef)].
    + exists added. now rewrite Ea, Ef.
    + exists (added ++ [msg_user m]).
      rewrite Ea, Ef, Ha, Hf, map_app, app_assoc. repeat split.
      apply Forall_app. split; [exact Hn|]. constructor; [|constructor].
      apply Hclean, in_or_app. right. now left.
Qed.

End LinesRoundTrip.

(** X10.  The file of users round-trips: when the file read at start-up is
    empty or ends with a line feed, and the users who answered the password
    question have no line feed in their name, then a program started again
    from the file as the program left it authenticates exactly the users
    that were authenticated. *)
Theorem users_file_round_trip (port data : string) (evs : list Event)
    (s : State) (u : string) :
  data = ""%string \/ ends_with_nl data = true ->
  clean_passwords evs ->
  run evs (init port data) = Some s ->
  isAuthenticated u (init port (users_file_contents data s))
  = isAuthenticated u s.
Proof.
  intros Hdata Hclean Hrun.
  destruct (run_users_file port data evs Hclean s Hrun) as (added & Ha & Hf & Hn).
  unfold isAuthenticated, users_file_contents. rewrite Ha, Hf.
  cbn [init authenticatedUsers server_listen set_listen_callbacks set_accepting].
  destruct Hdata as [-> | He].
  - cbn [String.append]. rewrite (split_nl_concat_lines added Hn).
    change (Js.split_nl "") with [""%string].
    rewrite !includes_app. apply orb_comm.
  - destruct (ends_with_nl_split data He) as [d ->].
    rewrite string_app_assoc, split_nl_app_nl, (split_nl_concat_lines added Hn).
    rewrite <- (string_app_nil_r (d ++ Js.nl)), string_app_assoc, split_nl_app_nl.
    change (Js.split_nl "") with [""%string].
    rewrite !includes_app.
    destruct (Js.includes (Js.split_nl d) u), (Js.includes added u),
      (Js.includes [""%string] u); reflexivity.
Qed.

Lemma users_file_round_trip_witness :
  (("U1" ++ Js.nl)%string = ""%string
   \/ ends_with_nl ("U1" ++ Js.nl) = true)
  /\ clean_passwords stranger_joins
  /\ run stranger_joins (init "9000" ("U1" ++ Js.nl))
     = Some (state_of (run stranger_joins from_saved_file))
  /\ isAuthenticated "U9"
       (init "9000"
          (users_file_contents ("U1" ++ Js.nl)
             (state_of (run stranger_joins from_saved_file))))
     = isAuthenticated "U9" (state_of (run stranger_joins from_saved_file)).
Proof.
  assert (Hc : clean_passwords stranger_joins).
  { intros m [H | [H | [H | []]]]; try discriminate.
    injection H as <-. reflexivity. }
  split; [right; evaluate|]. split; [exact Hc|]. split; [evaluate|].
  apply (users_file_round_trip "9000" ("U1" ++ Js.nl)%string stranger_joins
           (state_of (run stranger_joins from_saved_file)) "U9");
    [right; evaluate | exact Hc | evaluate].
Defined.

Example users_file_without_final_line_feed :
  let s := state_of (run stranger_joins (init "9000" "U1")) in
  isAuthenticated "U1" s = true /\ isAuthenticated "U9" s = true
  /\ users_file_contents "U1" s = ("U1U9" ++ Js.nl)%string
  /\ isAuthenticated "U1" (init "9000" (users_file_contents "U1" s)) = false
  /\ isAuthenticated "U9" (init "9000" (users_file_contents "U1" s)) = false.
Proof. do 4 (split; [evaluate|]). evaluate. Qed.

(** X11.  What one broadcast writes to a connection can be read back: for a
    payload whose channel and user contain no line feed, the data written,
    taken as one stream and split at the line feeds, is exactly the lines
    sent, followed by the empty rest after the last line feed.  For a raw
    text the stream is the text followed by one line feed. *)
Theorem wire_round_trip (message : Payload) (k : Socket) :
  clean_header message ->
  written k = [] ->
  Js.split_nl (concat_strings (written (deliver (send_of message) k)))
  = send_of message ++ [""%string]
  /\ (forall text, message = RawText text ->
        concat_strings (written (deliver (send_of message) k))
        = (text ++ Js.nl)%string).
Proof.
  intros Hc Hw. unfold deliver. cbn [written]. rewrite Hw. cbn [app].
  change (map (fun line => (line ++ Js.nl)%string) (send_of message))
    with (map terminate (send_of message)).
  split.
  - apply split_nl_concat_lines, send_of_no_nl, Hc.
  - intros text ->. cbn [send_of].
    rewrite concat_lines_join by apply split_nl_not_nil.
    now rewrite join_split_nl.
Qed.

Lemma wire_round_trip_witness :
  clean_header hello_world
  /\ written (mkSocket "net#0" running [] false) = []
  /\ Js.split_nl
       (concat_strings
          (written (deliver (send_of hello_world)
                      (mkSocket "net#0" running [] false))))
     = send_of hello_world ++ [""%string]
  /\ (forall text, hello_world = RawText text ->
        concat_strings
          (written (deliver (send_of hello_world)
                      (mkSocket "net#0" running [] false)))
        = (text ++ Js.nl)%string).
Proof.
  split; [split; reflexivity|]. split; [reflexivity|].
  apply (wire_round_trip hello_world (mkSocket "net#0" running [] false));
    [split; reflexivity | reflexivity].
Defined.

Example comma_and_line_feed_in_the_header :
  send_of (Structured ("C" ++ Js.nl ++ "1") "U1" "hi")
  = [("C" ++ Js.nl ++ "1,U1,hi")%string]
  /\ Js.split_nl
       (concat_strings
          (map terminate (send_of (Structured ("C" ++ Js.nl ++ "1") "U1" "hi"))))
     = ["C"; "1,U1,hi"; ""]%string.
Proof. split; reflexivity. Qed.

(** ** End-all and the transports *)

Section EndAllTransports.

(** A loop over the keys that changes every socket by [F]. *)
Lemma loop_map_sockets (F : Socket -> Socket) (l2 : Registry) : forall l1,
  NoDup (keys l2) ->
  (forall name, In name (keys l2) -> ~ In name (keys l1)) ->
  fold_left (fun l user => update user F l) (keys l2) (l1 ++ l2)
  = l1 ++ map_sockets F l2.
Proof.
  induction l2 as [|[n k] r IH]; intros l1 Hnd Hdis; [reflexivity|].
  inversion Hnd as [|? ? Hn Hr]; subst.
  assert (Hn1 : ~ In n (keys l1)) by (apply Hdis; now left).
  change (keys ((n, k) :: r)) with (n :: keys r).
  cbn [fold_left]. rewrite update_app_skip by exact Hn1.
  cbn [update]. rewrite String.eqb_refl.
  change (l1 ++ (n, F k) :: r) with (l1 ++ [(n, F k)] ++ r).
  rewrite app_assoc, (IH (l1 ++ [(n, F k)]) Hr).
  - now rewrite <- app_assoc.
  - intros name Hin. rewrite keys_app, in_app_iff. cbn.
    intros [H | [H | []]].
    + apply (Hdis name); [now right | exact H].
    + subst. contradiction.
Qed.

Lemma endAll_loop_eq (s : State) :
  NoDup (keys (listeners s)) ->
  Js.forEach (keys (listeners s)) socket_end s
  = set_listeners (map_sockets end_ (listeners s)) s.
Proof.
  intro Hnd.
  rewrite (forEach_ext socket_end
             (fun user s0 =>
                set_listeners ((fun user l => update user end_ l)
                                 user (listeners s0)) s0))
    by reflexivity.
  pose (G := fun (user : string) (l : Registry) => update user end_ l).
  change (Js.forEach (keys (listeners s))
            (fun user s0 => set_listeners (G user (listeners s0)) s0) s
          = set_listeners (map_sockets end_ (listeners s)) s).
  rewrite (forEach_set_listeners G). subst G. cbn beta. f_equal.
  apply (loop_map_sockets end_ (listeners s) [] Hnd). intros ? ? [].
Qed.

End EndAllTransports.

(** X12.  End-all ends the transport of every registered connection and
    does nothing else to it: nothing is written, no state changes, none is
    removed; the reply gives their number, and the rest of the state is
    untouched. *)
Theorem endAll_ends_every_transport (m : Message) (s : State) :
  NoDup (keys (listeners s)) ->
  isAuthenticated (msg_user m) s = true ->
  hears endAll m s
  = reply m
      ("Clients Terminated: " ++ Js.of_nat (List.length (listeners s)))%string
      (set_listeners (map_sockets end_ (listeners s)) s)
  /\ (forall name k,
        get name (listeners s) = Some k ->
        exists k',
          get name (listeners (hears endAll m s)) = Some k'
          /\ ended k' = true /\ written k' = written k
          /\ status k' = status k).
Proof.
  intros Hnd Ha.
  assert (E : hears endAll m s
              = reply m
                  ("Clients Terminated: "
                   ++ Js.of_nat (List.length (listeners s)))%string
                  (set_listeners (map_sockets end_ (listeners s)) s)).
  { cbn [hears]. unfold authenticatedTask. rewrite Ha.
    now rewrite endAll_task_eq, endAll_loop_eq. }
  split; [exact E|].
  intros name k Hget. rewrite E. cbn [listeners reply set_replies set_listeners].
  exists (end_ k). split; [|repeat split].
  clear -Hget. induction (listeners s) as [|[n0 k0] r IH]; [discriminate|].
  cbn in *. destruct (String.eqb n0 name); [congruence | auto].
Qed.

Lemma endAll_ends_every_transport_witness :
  NoDup (keys (listeners one_paused))
  /\ isAuthenticated (msg_user boss) one_paused = true
  /\ hears endAll boss one_paused
     = reply boss
         ("Clients Terminated: "
          ++ Js.of_nat (List.length (listeners one_paused)))%string
         (set_listeners (map_sockets end_ (listeners one_paused)) one_paused)
  /\ (forall name k,
        get name (listeners one_paused) = Some k ->
        exists k',
          get name (listeners (hears endAll boss one_paused)) = Some k'
          /\ ended k' = true /\ written k' = written k
          /\ status k' = status k).
Proof.
  split; [distinct_keys|]. split; [evaluate|].
  apply (endAll_ends_every_transport boss one_paused);
    [distinct_keys | evaluate].
Defined.

(** ** Broadcast with nobody to receive *)

Section BroadcastIdle.

Lemma console_forEach {A : Type} (f : A -> State -> State) (a : list A) :
  (forall x s, console (f x s) = console s) ->
  forall s, console (Js.forEach a f s) = console s.
Proof.
  intros H s.
  apply (forEach_preserves (fun s' => console s' = console s)); [|reflexivity].
  intros x s0 H0. now rewrite H.
Qed.

Lemma forEach_skip {A S : Type} (a : list A) (s : S) :
  Js.forEach a (fun _ s => s) s = s.
Proof. unfold Js.forEach. induction a; cbn; auto. Qed.

End BroadcastIdle.

(** X13.  Every broadcast mirrors its lines to the console, once and in
    order, whatever the registry holds.  With an empty registry that is
    all it does; and a payload that is neither a string nor an object
    decomposes into no line: the broadcast changes nothing at all. *)
Theorem broadcast_mirror (message : Payload) (s : State) :
  console (broadcast message s) = console s ++ map Plain (send_of message)
  /\ broadcast OtherValue s = s
  /\ (listeners s = [] ->
      broadcast message s
      = set_console (console s ++ map Plain (send_of message)) s).
Proof.
  split; [|split].
  - unfold broadcast. cbv zeta. rewrite forEach_log. cbn [console set_console].
    f_equal. apply console_forEach. intros user s0.
    destruct (status_is user running (listeners s0)); [|reflexivity].
    now apply console_forEach.
  - unfold broadcast. cbn [send_of]. cbv zeta. cbn [Js.forEach fold_left].
    rewrite (forEach_ext _ (fun _ s0 => s0)).
    + apply forEach_skip.
    + intros user s0. now destruct (status_is user running (listeners s0)).
  - intro Hl. unfold broadcast. cbv zeta. rewrite Hl.
    cbn [keys map Js.forEach fold_left]. apply forEach_log.
Qed.

(** ** Nicknames along a run *)

Section NicknamesAlongRuns.

Lemma not_In_keys_delete (name : string) (l : Registry) :
  ~ In name (keys (delete name l)).
Proof.
  intro H. apply In_keys_get in H. destruct H as [k H].
  now rewrite get_delete_same in H.
Qed.

(** One event either keeps the counter and adds no nickname, or is a
    connection, which moves the counter on and adds the nickname made from
    its old value. *)
Lemma step_keys_counter (e : Event) (s s' : State) :
  step e s = Some s' ->
  (listenerID s' = listenerID s
   /\ forall x, In x (keys (listeners s')) -> In x (keys (listeners s)))
  \/ (e = Connection /\ listenerID s' = S (listenerID s)
      /\ forall x, In x (keys (listeners s')) ->
           In x (keys (listeners s))
           \/ x = ("net#" ++ Js.of_nat (listenerID s))%string).
Proof.
  intro H.
  assert (Hsame : keys (listeners s') = keys (listeners s) ->
                  listenerID s' = listenerID s ->
                  listenerID s' = listenerID s
                  /\ forall x, In x (keys (listeners s')) ->
                       In x (keys (listeners s))).
  { intros Ek Ei. split; [exact Ei | now rewrite Ek]. }
  destruct e as [| |n|n|n|n| |c m|m|m|m]; cbn [step] in H.
  - destruct (is_nil (listen_callbacks s)); [discriminate|].
    injection H as <-. left. apply Hsame.
    + rewrite listeners_forEach; [reflexivity | intros [|?] ?; reflexivity].
    + rewrite listenerID_forEach; [reflexivity | intros [|?] ?; reflexivity].
  - destruct (accepting s); [|discriminate]. injection H as <-.
    right. split; [reflexivity|]. split; [reflexivity|].
    unfold on_connection. cbv zeta.
    cbn [listeners listenerID log set_console set_listeners set_listenerID].
    intros x Hin.
    destruct (keys_set_cases ("net#" ++ Js.of_nat (listenerID s))%string
                (mkSocket ("net#" ++ Js.of_nat (listenerID s)) running [] false)
                (listeners s)) as [[_ E] | [_ E]]; rewrite E in Hin.
    + now left.
    + apply in_app_iff in Hin. destruct Hin as [Hin | [<- | []]]; auto.
  - destruct (registered n s); [|discriminate]. injection H as <-.
    left. now apply Hsame.
  - destruct (registered n s); [|discriminate]. injection H as <-.
    left. apply Hsame; [|reflexivity].
    unfold on_socket_pause. cbn [listeners log set_console set_listeners].
    apply keys_update.
  - destruct (registered n s); [|discriminate]. injection H as <-.
    left. apply Hsame; [|reflexivity].
    unfold on_socket_resume. cbn [listeners log set_console set_listeners].
    apply keys_update.
  - destruct (registered n s); [|discriminate]. injection H as <-.
    left. split; [reflexivity|].
    unfold on_socket_close. cbn [listeners log set_console set_listeners].
    intros x Hin. eapply In_keys_delete, Hin.
  - destruct (_ && _); [|discriminate]. injection H as <-. left. apply Hsame.
    + rewrite listeners_forEach; reflexivity.
    + rewrite listenerID_forEach; reflexivity.
  - injection H as <-. left.
    apply Hsame; [apply keys_hears | apply listenerID_hears].
  - destruct (existsb _ _); [|discriminate]. injection H as <-.
    left. now apply Hsame.
  - destruct (existsb _ _); [|discriminate]. injection H as <-.
    left. now apply Hsame.
  - injection H as <-. left. unfold ambient_handler.
    apply Hsame; [apply keys_broadcast | apply listenerID_broadcast].
Qed.

(** A nickname that is below the counter and not registered stays so. *)
Lemma retired_nickname_run (name : string) (evs : list Event) : forall s s',
  ~ In name (keys (listeners s)) ->
  (exists i, (i < listenerID s)%nat /\ name = ("net#" ++ Js.of_nat i)%string) ->
  run evs s = Some s' ->
  ~ In name (keys (listeners s')).
Proof.
  induction evs as [|e r IH]; intros s s' Hn Hi Hrun; cbn [run] in Hrun.
  - now injection Hrun as <-.
  - destruct (step e s) as [s1|] eqn:E; [|discriminate].
    destruct Hi as (i & Hi & ->).
    destruct (step_keys_counter e s s1 E) as [[El Ek] | (_ & El & Ek)].
    + apply (IH s1 s'); [|exists i; split; [lia | reflexivity] | exact Hrun].
      intro Hin. apply Hn, Ek, Hin.
    + apply (IH s1 s'); [|exists i; split; [lia | reflexivity] | exact Hrun].
      intro Hin. destruct (Ek _ Hin) as [H | H]; [now apply Hn|].
      cbn in H. injection H as H. apply of_nat_inj in H. lia.
Qed.

End NicknamesAlongRuns.

(** X14.  In every state the program reaches, a new connection gets the
    nickname made from the counter, which no registered connection has; it
    is registered after the others, and the counter moves on by one. *)
Theorem accepted_nickname_is_new (port data : string) (evs : list Event)
    (s s' : State) :
  run evs (init port data) = Some s ->
  step Connection s = Some s' ->
  ~ In ("net#" ++ Js.of_nat (listenerID s))%string (keys (listeners s))
  /\ keys (listeners s')
     = keys (listeners s) ++ [("net#" ++ Js.of_nat (listenerID s))%string]
  /\ listenerID s' = S (listenerID s)
  /\ NoDup (keys (listeners s')).
Proof.
  intros Hrun H.
  destruct (connection_is_fresh port data evs s s' Hrun H) as (Hf & Hk & Hi).
  repeat split; try assumption.
  eapply step_NoDup; [|exact H]. eapply reachable_NoDup, Hrun.
Qed.

Lemma accepted_nickname_is_new_witness :
  run three_joined (init "9000" "U1") = Some three_clients
  /\ step Connection three_clients
     = Some (state_of (step Connection three_clients))
  /\ ~ In ("net#" ++ Js.of_nat (listenerID three_clients))%string
         (keys (listeners three_clients))
  /\ keys (listeners (state_of (step Connection three_clients)))
     = keys (listeners three_clients)
       ++ [("net#" ++ Js.of_nat (listenerID three_clients))%string]
  /\ listenerID (state_of (step Connection three_clients))
     = S (listenerID three_clients)
  /\ NoDup (keys (listeners (state_of (step Connection three_clients)))).
Proof.
  split; [evaluate|]. split; [evaluate|].
  apply (accepted_nickname_is_new "9000" "U1" three_joined three_clients);
    evaluate.
Defined.

(** X15.  A nickname is never used again: once the ['close'] of a
    connection has been handled, no later connection, and nothing else,
    registers its nickname again. *)
Theorem closed_nickname_stays_out (port data : string) (evs1 evs2 : list Event)
    (name : string) (s s1 s2 : State) :
  run evs1 (init port data) = Some s ->
  step (SocketClose name) s = Some s1 ->
  run evs2 s1 = Some s2 ->
  registered name s2 = false.
Proof.
  intros Hrun Hclose Hrun2.
  cbn [step] in Hclose.
  destruct (registered name s) eqn:Hreg; [|discriminate].
  injection Hclose as <-.
  assert (Hin : In name (keys (listeners s))).
  { unfold registered in Hreg.
    destruct (get name (listeners s)) eqn:E; [|discriminate].
    eapply get_In_keys, E. }
  destruct (reachable_named_below port data evs1 s Hrun name Hin) as (i & Hi & E).
  unfold registered. rewrite get_not_In_keys; [reflexivity|].
  apply (retired_nickname_run name evs2 (on_socket_close name s) s2);
    [| |exact Hrun2].
  - unfold on_socket_close. cbn [listeners log set_console set_listeners].
    apply not_In_keys_delete.
  - exists i. split; [exact Hi | exact E].
Qed.

Lemma closed_nickname_stays_out_witness :
  run three_joined (init "9000" "U1") = Some three_clients
  /\ step (SocketClose "net#1") three_clients
     = Some (state_of (step (SocketClose "net#1") three_clients))
  /\ run [Connection; Connection; Hears endAll boss]
       (state_of (step (SocketClose "net#1") three_clients))
     = Some (state_of
               (run [Connection; Connection; Hears endAll boss]
                  (state_of (step (SocketClose "net#1") three_clients))))
  /\ registered "net#1"
       (state_of
          (run [Connection; Connection; Hears endAll boss]
             (state_of (step (SocketClose "net#1") three_clients)))) = false.
Proof.
  do 3 (split; [evaluate|]).
  apply (closed_nickname_stays_out "9000" "U1" three_joined
           [Connection; Connection; Hears endAll boss] "net#1" three_clients
           (state_of (step (SocketClose "net#1") three_clients)));
    evaluate.
Defined.

(** ** What reaches a connection, and how long it stays registered *)

Section WrittenData.

Lemma get_update (n name : string) (F : Socket -> Socket) (l : Registry) :
  get name (update n F l)
  = if String.eqb n name then option_map F (get name l) else get name l.
Proof.
  induction l as [|[n0 k0] r IH]; [now destruct (String.eqb n name)|].
  cbn [update]. destruct (String.eqb n0 n) eqn:E0.
  - apply String.eqb_eq in E0. subst n0. cbn [get].
    destruct (String.eqb n name); reflexivity.
  - cbn [get]. destruct (String.eqb n0 name) eqn:E1.
    + apply String.eqb_eq in E1. subst n0.
      rewrite String.eqb_sym in E0. now rewrite E0.
    + exact IH.
Qed.

Lemma get_set_other (n name : string) (k : Socket) (l : Registry) :
  n <> name -> get name (set n k l) = get name l.
Proof.
  intro Hne. induction l as [|[n0 k0] r IH].
  - cbn. apply String.eqb_neq in Hne. now rewrite Hne.
  - cbn [set]. destruct (String.eqb n0 n) eqn:E0.
    + apply String.eqb_eq in E0. subst n0. cbn [get].
      apply String.eqb_neq in Hne. now rewrite Hne.
    + cbn [get]. now rewrite IH.
Qed.

(** A method call that writes nothing leaves what was written. *)
Lemma written_to_update (name : string) (data : list string) (u : string)
    (F : Socket -> Socket) (s : State) :
  (forall k, written (F k) = written k) ->
  written_to name data s ->
  written_to name data (set_listeners (update u F (listeners s)) s).
Proof.
  intros HF (k & Hget & Hw). unfold written_to.
  cbn [listeners set_listeners]. rewrite get_update, Hget.
  destruct (String.eqb u name); cbn [option_map]; eauto.
  exists (F k). now rewrite HF.
Qed.

Lemma written_to_forEach {A : Type} (name : string) (data : list string)
    (f : A -> State -> State) (a : list A) :
  (forall x s, written_to name data s -> written_to name data (f x s)) ->
  forall s, written_to name data s -> written_to name data (Js.forEach a f s).
Proof. intro H. now apply forEach_preserves. Qed.

(** No command writes to a connection or unregisters one. *)
Lemma written_to_hears (name : string) (data : list string) (c : Command)
    (m : Message) (s : State) :
  written_to name data s -> written_to name data (hears c m s).
Proof.
  intro H.
  destruct c; cbn [hears]; unfold authenticatedTask, authenticate_handler;
    try (destruct (isAuthenticated (msg_user m) s); cbn [negb]; try exact H).
  - rewrite endAll_task_eq.
    change (written_to name data
              (Js.forEach (keys (listeners s)) socket_end s)).
    apply written_to_forEach; [|exact H].
    intros user s0 H0. now apply written_to_update.
  - unfold pauseAll_task. cbv zeta.
    match goal with
    | |- written_to _ _ (reply _ _ ?x) => change (written_to name data x)
    end.
    apply written_to_forEach; [|exact H].
    intros user s0 H0.
    destruct (status_is user running (listeners s0)); [|exact H0].
    unfold socket_pause, on_socket_pause.
    match goal with
    | |- written_to _ _ (log _ ?x) => change (written_to name data x)
    end.
    now apply written_to_update.
  - unfold resumeAll_task. cbv zeta.
    match goal with
    | |- context [Js.forEach ?a ?f (s, 0)] =>
        pose proof (forEach_preserves
                      (fun p => written_to name data (fst p)) f a) as Hp;
        specialize (fun Hf => Hp Hf (s, 0) H);
        destruct (Js.forEach a f (s, 0)) as [s1 count]
    end.
    cbn [fst] in Hp.
    match goal with
    | |- written_to _ _ (reply _ _ ?x) => change (written_to name data x)
    end.
    apply Hp. intros user [s0 n] H0. cbn [fst] in *.
    destruct (status_is user paused (listeners s0)); [|exact H0].
    cbn [fst]. unfold socket_resume, on_socket_resume.
    match goal with
    | |- written_to _ _ (log _ ?x) => change (written_to name data x)
    end.
    now apply written_to_update.
  - unfold closeServer_task.
    destruct (server_status s); try exact H.
    now destruct (0 <? List.length (keys (listeners s)))%nat.
  - unfold openServer_task. now destruct (server_status s).
Qed.

End WrittenData.

(** X16.  In every state the program reaches, a registered connection stays
    registered through every event but its own ['close'], and the data
    written to it only grows: by the lines of a broadcast, each followed by
    a line feed, when the event is a message heard while the connection is
    running, and by nothing in every other case.  No command and no event
    of another connection writes to it. *)
Theorem written_data_grows_by_broadcasts (port data : string)
    (evs : list Event) (s : State) (e : Event) (s' : State)
    (name : string) (k : Socket) :
  run evs (init port data) = Some s ->
  step e s = Some s' ->
  get name (listeners s) = Some k ->
  e <> SocketClose name ->
  exists k',
    get name (listeners s') = Some k'
    /\ written k'
       = written k
         ++ match e with
            | Ambient m =>
                if SocketStatus_eqb (status k) running
                then map terminate
                       (send_of (Structured (msg_channel m) (msg_user m)
                                   (msg_text m)))
                else []
            | _ => []
            end.
Proof.
  intros Hrun H Hget Hne.
  assert (W : written_to name (written k) s) by (exists k; auto).
  assert (Hsame : written_to name (written k) s' ->
                  exists k', get name (listeners s') = Some k'
                             /\ written k' = written k ++ []).
  { intros (k' & Hg & Hw). exists k'. now rewrite app_nil_r. }
  destruct e as [| |n|n|n|n| |c m|m|m|m]; cbn [step] in H.
  - destruct (is_nil (listen_callbacks s)); [discriminate|].
    injection H as <-. apply Hsame. unfold written_to.
    rewrite listeners_forEach; [exact W | intros [|?] ?; reflexivity].
  - pose proof (connection_is_fresh port data evs s s' Hrun H) as (Hf & _ & _).
    cbn [step] in H. destruct (accepting s); [|discriminate].
    injection H as <-. apply Hsame. exists k. split; [|reflexivity].
    unfold on_connection. cbv zeta.
    cbn [listeners log set_console set_listeners set_listenerID].
    rewrite get_set_other; [exact Hget|].
    intros E. apply Hf. rewrite E. eapply get_In_keys, Hget.
  - destruct (registered n s); [|discriminate]. injection H as <-.
    now apply Hsame.
  - destruct (registered n s); [|discriminate]. injection H as <-.
    apply Hsame. unfold on_socket_pause.
    match goal with
    | |- written_to _ _ (log _ ?x) => change (written_to name (written k) x)
    end.
    now apply written_to_update.
  - destruct (registered n s); [|discriminate]. injection H as <-.
    apply Hsame. unfold on_socket_resume.
    match goal with
    | |- written_to _ _ (log _ ?x) => change (written_to name (written k) x)
    end.
    now apply written_to_update.
  - destruct (registered n s); [|discriminate]. injection H as <-.
    apply Hsame. exists k. split; [|reflexivity].
    unfold on_socket_close. cbn [listeners log set_console set_listeners].
    rewrite get_delete_other; [exact Hget | congruence].
  - destruct (_ && _); [|discriminate]. injection H as <-.
    apply Hsame. unfold written_to.
    rewrite listeners_forEach; [exact W | reflexivity].
  - injection H as <-. apply Hsame. now apply written_to_hears.
  - destruct (existsb _ _); [|discriminate]. injection H as <-.
    now apply Hsame.
  - destruct (existsb _ _); [|discriminate]. injection H as <-.
    now apply Hsame.
  - injection H as <-. unfold ambient_handler.
    rewrite (broadcast_eq _ s (reachable_NoDup port data evs s Hrun)).
    cbn [listeners set_console set_listeners].
    rewrite get_map_status, Hget. cbn [option_map].
    destruct (SocketStatus_eqb (status k) running).
    + eexists. split; [reflexivity|]. reflexivity.
    + exists k. now rewrite app_nil_r.
Qed.

Lemma written_data_grows_by_broadcasts_witness :
  run (three_joined ++ [SocketPause "net#1"]) (init "9000" "U1")
  = Some one_paused
  /\ step (Ambient (mkMessage "U1" "C1" "hi")) one_paused
     = Some (state_of (step (Ambient (mkMessage "U1" "C1" "hi")) one_paused))
  /\ get "net#0" (listeners one_paused)
     = Some (mkSocket "net#0" running [] false)
  /\ Ambient (mkMessage "U1" "C1" "hi") <> SocketClose "net#0"
  /\ exists k',
       get "net#0"
         (listeners (state_of (step (Ambient (mkMessage "U1" "C1" "hi"))
                                 one_paused))) = Some k'
       /\ written k'
          = written (mkSocket "net#0" running [] false)
            ++ (if SocketStatus_eqb
                     (status (mkSocket "net#0" running [] false)) running
                then map terminate
                       (send_of (Structured
                                   (msg_channel (mkMessage "U1" "C1" "hi"))
                                   (msg_user (mkMessage "U1" "C1" "hi"))
                                   (msg_text (mkMessage "U1" "C1" "hi"))))
                else []).
Proof.
  split; [evaluate|]. split; [evaluate|]. split; [evaluate|].
  split; [discriminate|].
  apply (written_data_grows_by_broadcasts "9000" "U1"
           (three_joined ++ [SocketPause "net#1"]) one_paused
           (Ambient (mkMessage "U1" "C1" "hi"))
           (state_of (step (Ambient (mkMessage "U1" "C1" "hi")) one_paused))
           "net#0" (mkSocket "net#0" running [] false));
    [evaluate | evaluate | evaluate | discriminate].
Defined.

(** ** The status CLOSING and the listener *)

Section ClosingInvariant.

Lemma step_closing_down (e : Event) (s s' : State) :
  settled s ->
  (server_status s = closing -> closing_down s) ->
  step e s = Some s' ->
  server_status s' = closing -> closing_down s'.
Proof.
  intros Hset Hinv H Hc'.
  destruct (server_status s) eqn:Es.
  - destruct (step_into_closing e s s' H Hc') as (Hl & _); congruence.
  - destruct (step_into_closing e s s' H Hc') as (_ & Hne & m & -> & Ha);
      [congruence|].
    apply step_control in H. rewrite Ha, Es in H.
    apply keys_nil_iff in Hne. rewrite Hne in H.
    unfold control in H. injection H as E1 E2 E3 E4.
    unfold closing_down. rewrite E1, E2, E3, E4. repeat split.
    + apply Hset. now left.
    + now destruct (close_callbacks s).
  - assert (Hne : e <> ServerClose).
    { intros ->. apply step_control in H. destruct H as (_ & _ & H).
      unfold control in H. congruence. }
    apply (closing_down_step e s s' (Hinv eq_refl) H Hne).
  - destruct (step_into_closing e s s' H Hc') as (Hl & _); congruence.
Qed.

End ClosingInvariant.

(** X17.  In every state the program reaches, while the status is CLOSING
    the listener has been told to close and accepts no connection, the
    callback that will set CLOSED is waiting, and no ['listening'] callback
    is. *)
Theorem closing_means_not_accepting (port data : string) (evs : list Event)
    (s : State) :
  run evs (init port data) = Some s ->
  server_status s = closing ->
  accepting s = false
  /\ step Connection s = None
  /\ close_callbacks s <> []
  /\ listen_callbacks s = [].
Proof.
  intros Hrun Hc.
  assert (Hinv : settled s /\ (server_status s = closing -> closing_down s)).
  { apply (run_invariant
             (fun s0 => settled s0
                        /\ (server_status s0 = closing -> closing_down s0)))
      with evs (init port data); [| |exact Hrun].
    - intros e s0 s1 [Hset Hi] H1. split.
      + eapply step_settled; eauto.
      + eapply step_closing_down; eauto.
    - split; [apply init_settled | discriminate]. }
  destruct Hinv as [_ Hinv]. destruct (Hinv Hc) as (_ & Ha & Hl & Hcb).
  repeat split; try assumption. cbn [step]. now rewrite Ha.
Qed.

Lemma closing_means_not_accepting_witness :
  run (three_joined ++ [Hears closeServer boss; Hears endAll boss])
    (init "9000" "U1")
  = Some (state_of (run [Hears endAll boss] closing_state))
  /\ server_status (state_of (run [Hears endAll boss] closing_state)) = closing
  /\ accepting (state_of (run [Hears endAll boss] closing_state)) = false
  /\ step Connection (state_of (run [Hears endAll boss] closing_state)) = None
  /\ close_callbacks (state_of (run [Hears endAll boss] closing_state)) <> []
  /\ listen_callbacks (state_of (run [Hears endAll boss] closing_state)) = [].
Proof.
  split; [evaluate|]. split; [evaluate|].
  apply (closing_means_not_accepting "9000" "U1"
           (three_joined ++ [Hears closeServer boss; Hears endAll boss]));
    evaluate.
Defined.

(** ** Connections over a whole run *)

Section RegistryAlongRuns.

Lemma In_keys_delete_other (name x : string) (l : Registry) :
  x <> name -> In x (keys l) -> In x (keys (delete name l)).
Proof.
  intros Hne Hin. apply In_keys_get in Hin. destruct Hin as [k Hk].
  apply (get_In_keys x _ k). now rewrite get_delete_other.
Qed.

(** A registered nickname stays registered through every event but the
    ['close'] of its socket. *)
Lemma step_keys_kept (e : Event) (s s' : State) (x : string) :
  step e s = Some s' -> In x (keys (listeners s)) -> e <> SocketClose x ->
  In x (keys (listeners s')).
Proof.
  intros H Hin Hne.
  destruct e as [| |n|n|n|n| |c m|m|m|m]; cbn [step] in H.
  - destruct (is_nil (listen_callbacks s)); [discriminate|].
    injection H as <-.
    rewrite listeners_forEach; [exact Hin | intros [|?] ?; reflexivity].
  - destruct (accepting s); [|discriminate]. injection H as <-.
    unfold on_connection. cbv zeta.
    cbn [listeners log set_console set_listeners set_listenerID].
    destruct (keys_set_cases ("net#" ++ Js.of_nat (listenerID s))%string
                (mkSocket ("net#" ++ Js.of_nat (listenerID s)) running [] false)
                (listeners s)) as [[_ E] | [_ E]]; rewrite E;
      [exact Hin | apply in_or_app; now left].
  - destruct (registered n s); [|discriminate]. now injection H as <-.
  - destruct (registered n s); [|discriminate]. injection H as <-.
    unfold on_socket_pause. cbn [listeners log set_console set_listeners].
    now rewrite keys_update.
  - destruct (registered n s); [|discriminate]. injection H as <-.
    unfold on_socket_resume. cbn [listeners log set_console set_listeners].
    now rewrite keys_update.
  - destruct (registered n s); [|discriminate]. injection H as <-.
    unfold on_socket_close. cbn [listeners log set_console set_listeners].
    apply In_keys_delete_other; [congruence | exact Hin].
  - destruct (_ && _); [|discriminate]. injection H as <-.
    rewrite listeners_forEach; [exact Hin | reflexivity].
  - injection H as <-. now rewrite keys_hears.
  - destruct (existsb _ _); [|discriminate]. now injection H as <-.
  - destruct (existsb _ _); [|discriminate]. now injection H as <-.
  - injection H as <-. unfold ambient_handler. now rewrite keys_broadcast.
Qed.

Lemma run_keys_kept (x : string) (evs : list Event) : forall s s',
  run evs s = Some s' -> In x (keys (listeners s)) ->
  ~ In (SocketClose x) evs ->
  In x (keys (listeners s')).
Proof.
  induction evs as [|e r IH]; intros s s' Hrun Hin Hn; cbn [run] in Hrun.
  - now injection Hrun as <-.
  - destruct (step e s) as [s1|] eqn:E; [|discriminate].
    apply (IH s1 s' Hrun); [|intro; apply Hn; now right].
    apply (step_keys_kept e s s1 x E Hin). intros ->. apply Hn. now left.
Qed.

(** Without a new connection the registry only loses nicknames. *)
Lemma run_keys_shrink (x : string) (evs : list Event) : forall s s',
  run evs s = Some s' -> ~ In Connection evs ->
  In x (keys (listeners s')) -> In x (keys (listeners s)).
Proof.
  induction evs as [|e r IH]; intros s s' Hrun Hn Hin; cbn [run] in Hrun.
  - now injection Hrun as <-.
  - destruct (step e s) as [s1|] eqn:E; [|discriminate].
    assert (Hin1 : In x (keys (listeners s1))).
    { apply (IH s1 s' Hrun); [intro; apply Hn; now right | exact Hin]. }
    destruct (step_keys_counter e s s1 E) as [[_ Hk] | (-> & _)].
    + now apply Hk.
    + exfalso. apply Hn. now left.
Qed.

(** Without a new connection, a nickname whose ['close'] was handled is
    not registered at the end. *)
Lemma run_closed_out (x : string) (evs : list Event) : forall s s',
  run evs s = Some s' -> ~ In Connection evs -> In (SocketClose x) evs ->
  ~ In x (keys (listeners s')).
Proof.
  induction evs as [|e r IH]; intros s s' Hrun Hn Hc; [contradiction|].
  cbn [run] in Hrun.
  destruct (step e s) as [s1|] eqn:E; [|discriminate].
  assert (Hnr : ~ In Connection r) by (intro; apply Hn; now right).
  destruct Hc as [-> | Hc].
  - intro Hin. apply (run_keys_shrink x r s1 s' Hrun Hnr) in Hin.
    cbn [step] in E. destruct (registered x s); [|discriminate].
    injection E as <-. revert Hin. unfold on_socket_close.
    cbn [listeners log set_console set_listeners].
    apply not_In_keys_delete.
  - now apply (IH s1 s' Hrun).
Qed.

(** Without a new connection, once the ['close'] of every registered socket
    was handled the registry is empty. *)
Lemma run_all_closed (evs : list Event) (s s' : State) :
  run evs s = Some s' -> ~ In Connection evs ->
  (forall name, In name (keys (listeners s)) -> In (SocketClose name) evs) ->
  listeners s' = [].
Proof.
  intros Hrun Hn Hall.
  destruct (listeners s') as [|[n k] r] eqn:El; [reflexivity|].
  exfalso.
  assert (Hin : In n (keys (listeners s'))) by (rewrite El; now left).
  apply (run_closed_out n evs s s' Hrun Hn); [|exact Hin].
  apply Hall. now apply (run_keys_shrink n evs s s' Hrun Hn).
Qed.

Lemma run_keeps_authenticated (u : string) (evs : list Event) (s s' : State) :
  isAuthenticated u s = true -> run evs s = Some s' ->
  isAuthenticated u s' = true.
Proof.
  intros Ha Hrun.
  apply (run_invariant (fun s0 => isAuthenticated u s0 = true)) with evs s;
    [|exact Ha | exact Hrun].
  intros e s0 s1 H0 H1. unfold isAuthenticated in *.
  destruct (step_authenticatedUsers e s0 s1 H1) as [E | (m & _ & _ & E)];
    rewrite E; [exact H0|].
  rewrite includes_app, H0. reflexivity.
Qed.

Lemma get_map_sockets (F : Socket -> Socket) (name : string) (l : Registry) :
  get name (map_sockets F l) = option_map F (get name l).
Proof.
  induction l as [|[n k] r IH]; [reflexivity|].
  cbn. destruct (String.eqb n name); [reflexivity | exact IH].
Qed.

End RegistryAlongRuns.

(** C8, amended.  End-all of an authenticated operator calls [end] on the
    transport of every registered connection and replies with their
    number; it removes no connection, so a second end-all right after it
    replies with the same number.  A connection is removed when its
    ['close'] is handled and not before: whatever is handled after the
    first end-all, a connection whose ['close'] has not been handled is
    still registered; and once the ['close'] of every connection ended by
    the first call has been handled, in any order and among any other
    events, with no new connection accepted, the registry is empty and the
    next end-all replies ["Clients Terminated: 0"].  These ['close'] events
    can be delivered. *)
Theorem endAll_twice (s : State) (m : Message) :
  NoDup (keys (listeners s)) ->
  isAuthenticated (msg_user m) s = true ->
  exists s1,
    step (Hears endAll m) s = Some s1
    /\ last_reply s1
       = Some ("Clients Terminated: "
               ++ Js.of_nat (List.length (listeners s)))%string
    /\ listeners s1 = map_sockets end_ (listeners s)
    /\ (forall name k,
          get name (listeners s) = Some k ->
          exists k', get name (listeners s1) = Some k' /\ ended k' = true)
    /\ keys (listeners s1) = keys (listeners s)
    /\ last_reply (hears endAll m s1)
       = Some ("Clients Terminated: "
               ++ Js.of_nat (List.length (listeners s)))%string
    /\ (forall evs s2 name,
          run evs s1 = Some s2 ->
          In name (keys (listeners s)) -> ~ In (SocketClose name) evs ->
          registered name s2 = true)
    /\ (forall evs s2,
          run evs s1 = Some s2 ->
          ~ In Connection evs ->
          (forall name, In name (keys (listeners s)) ->
                        In (SocketClose name) evs) ->
          listeners s2 = []
          /\ last_reply (hears endAll m s2)
             = Some "Clients Terminated: 0"%string)
    /\ exists s2,
         run (map SocketClose (keys (listeners s))) s1 = Some s2
         /\ listeners s2 = []
         /\ last_reply (hears endAll m s2)
            = Some "Clients Terminated: 0"%string.
Proof.
  intros Hnd Ha.
  assert (E : hears endAll m s
              = reply m
                  ("Clients Terminated: "
                   ++ Js.of_nat (List.length (listeners s)))%string
                  (set_listeners (map_sockets end_ (listeners s)) s)).
  { cbn [hears]. unfold authenticatedTask. rewrite Ha.
    now rewrite endAll_task_eq, endAll_loop_eq. }
  assert (El : listeners (hears endAll m s) = map_sockets end_ (listeners s))
    by (now rewrite E).
  assert (Hk : keys (listeners (hears endAll m s)) = keys (listeners s))
    by apply keys_hears.
  assert (Ha1 : isAuthenticated (msg_user m) (hears endAll m s) = true).
  { unfold isAuthenticated. now rewrite authenticatedUsers_hears. }
  exists (hears endAll m s).
  split; [reflexivity|].
  split; [now rewrite E, last_reply_reply|].
  split; [exact El|].
  split.
  { intros name k Hget. rewrite El, get_map_sockets, Hget.
    exists (end_ k). split; reflexivity. }
  split; [exact Hk|].
  split.
  { cbn [hears]. unfold authenticatedTask at 1. fold (hears endAll m s).
    rewrite Ha1, endAll_task_eq, last_reply_reply.
    do 3 f_equal. apply (f_equal (@List.length string)) in Hk.
    unfold keys in Hk. now rewrite !length_map in Hk. }
  split.
  { intros evs s2 name Hrun Hin Hn.
    assert (H2 : In name (keys (listeners s2))).
    { apply (run_keys_kept name evs _ s2 Hrun); [now rewrite Hk | exact Hn]. }
    apply In_keys_get in H2. destruct H2 as [k2 H2].
    unfold registered. now rewrite H2. }
  split.
  { intros evs s2 Hrun Hn Hall.
    assert (Hl2 : listeners s2 = []).
    { apply (run_all_closed evs _ s2 Hrun Hn). now rewrite Hk. }
    split; [exact Hl2|].
    cbn [hears]. unfold authenticatedTask.
    rewrite (run_keeps_authenticated _ evs _ s2 Ha1 Hrun).
    now rewrite endAll_task_eq, last_reply_reply, Hl2. }
  destruct (run_closes (listeners s) (hears endAll m s) Hk Hnd)
    as (s2 & Hrun & Hl2 & _).
  exists s2. split; [exact Hrun|]. split; [exact Hl2|].
  cbn [hears]. unfold authenticatedTask.
  rewrite (run_keeps_authenticated _ _ _ s2 Ha1 Hrun).
  now rewrite endAll_task_eq, last_reply_reply, Hl2.
Qed.

Lemma endAll_twice_witness :
  NoDup (keys (listeners three_clients))
  /\ isAuthenticated (msg_user boss) three_clients = true
  /\ exists s1,
       step (Hears endAll boss) three_clients = Some s1
       /\ last_reply s1
          = Some ("Clients Terminated: "
                  ++ Js.of_nat (List.length (listeners three_clients)))%string
       /\ listeners s1 = map_sockets end_ (listeners three_clients)
       /\ (forall name k,
             get name (listeners three_clients) = Some k ->
             exists k', get name (listeners s1) = Some k' /\ ended k' = true)
       /\ keys (listeners s1) = keys (listeners three_clients)
       /\ last_reply (hears endAll boss s1)
          = Some ("Clients Terminated: "
                  ++ Js.of_nat (List.length (listeners three_clients)))%string
       /\ (forall evs s2 name,
             run evs s1 = Some s2 ->
             In name (keys (listeners three_clients)) ->
             ~ In (SocketClose name) evs ->
             registered name s2 = true)
       /\ (forall evs s2,
             run evs s1 = Some s2 ->
             ~ In Connection evs ->
             (forall name, In name (keys (listeners three_clients)) ->
                           In (SocketClose name) evs) ->
             listeners s2 = []
             /\ last_reply (hears endAll boss s2)
                = Some "Clients Terminated: 0"%string)
       /\ exists s2,
            run (map SocketClose (keys (listeners three_clients))) s1 = Some s2
            /\ listeners s2 = []
            /\ last_reply (hears endAll boss s2)
               = Some "Clients Terminated: 0"%string.
Proof.
  split; [distinct_keys|]. split; [evaluate|].
  apply (endAll_twice three_clients boss); [distinct_keys | evaluate].
Defined.

Example endAll_closes_in_another_order :
  option_map (fun s => (keys (listeners s), new_replies three_clients s))
    (run [Hears endAll boss; SocketClose "net#2"; Hears status_ stranger;
          SocketClose "net#0"; Hears endAll boss; SocketClose "net#1";
          Hears endAll boss] three_clients)
  = Some ([], ["Clients Terminated: 3"; not_authenticated;
               "Clients Terminated: 1"; "Clients Terminated: 0"]%string).
Proof. evaluate. Qed.

(** ** From CLOSING to CLOSED, in whatever order the events arrive *)

Section ClosingToClosed.

(** One event in a [quiet] state, open-server apart: no connection is
    accepted, and the status changes only by the ['close'] of the listener,
    from CLOSING to CLOSED. *)
Lemma quiet_step (e : Event) (s s' : State) :
  quiet s -> step e s = Some s' -> (forall m, e <> Hears openServer m) ->
  quiet s' /\ e <> Connection
  /\ (e = ServerClose -> server_status s = closing /\ server_status s' = closed)
  /\ (e <> ServerClose -> server_status s' = server_status s).
Proof.
  intros (Ha & Hl & Hs) H Hno.
  assert (Hsame : control s' = control s ->
                  quiet s' /\ server_status s' = server_status s).
  { unfold control. intro E. injection E as E1 E2 E3 E4.
    unfold quiet. now rewrite E1, E2, E3, E4. }
  apply step_control in H.
  destruct e as [| |n|n|n|n| |c m|m|m|m];
    try (destruct (Hsame H) as [Hq He];
         split; [exact Hq|]; split; [discriminate|];
         split; [discriminate | intros _; exact He]).
  - destruct H as [H _]. congruence.
  - destruct H as [H _]. congruence.
  - destruct H as (_ & Hc & H). unfold control in H.
    injection H as E1 E2 E3 E4.
    destruct Hs as [[Hs Hcb] | [Hs Hcb]]; [|congruence].
    split; [|split; [discriminate|split; [now split | congruence]]].
    unfold quiet. rewrite E1, E2, E3, E4. repeat split; try assumption.
    now right.
  - assert (Hc : control s' = control s).
    { destruct c; try exact H.
      - destruct (isAuthenticated (msg_user m) s); [|exact H].
        destruct Hs as [[Hs _] | [Hs _]]; now rewrite Hs in H.
      - exfalso. now apply (Hno m). }
    destruct (Hsame Hc) as [Hq He].
    split; [exact Hq|]. split; [discriminate|].
    split; [discriminate | intros _; exact He].
Qed.

(** Once CLOSED, and until an open-server, nothing more happens to the
    listener: its ['close'] cannot come again. *)
Lemma closed_run (evs : list Event) : forall s s',
  quiet s -> server_status s = closed -> no_open_request evs ->
  run evs s = Some s' ->
  quiet s' /\ server_status s' = closed
  /\ ~ In ServerClose evs /\ ~ In Connection evs.
Proof.
  induction evs as [|e r IH]; intros s s' Hq Hs Hno Hrun; cbn [run] in Hrun.
  - injection Hrun as <-.
    split; [exact Hq|]. split; [exact Hs|]. split; intros [].
  - destruct (step e s) as [s1|] eqn:E; [|discriminate].
    destruct (quiet_step e s s1 Hq E) as (Hq1 & Hnc & Hsc & Hother).
    { intros m ->. apply (Hno m). now left. }
    assert (Hne : e <> ServerClose).
    { intros He. destruct (Hsc He) as [Hc _]. congruence. }
    destruct (IH s1 s' Hq1) as (Hq' & Hs' & Hn1 & Hn2);
      [rewrite (Hother Hne); exact Hs
      | intros m Hin; apply (Hno m); now right | exact Hrun|].
    split; [exact Hq'|]. split; [exact Hs'|]. split.
    + intros [H | H]; [congruence | contradiction].
    + intros [H | H]; [congruence | contradiction].
Qed.

(** A run from a [quiet] state without open-server: no connection is
    accepted; the status is CLOSED at the end exactly when the ['close'] of
    the listener was handled, and it was handled once. *)
Lemma quiet_run (evs : list Event) : forall s s',
  quiet s -> no_open_request evs -> run evs s = Some s' ->
  quiet s' /\ ~ In Connection evs
  /\ (In ServerClose evs ->
      server_status s' = closed
      /\ exists a b, evs = a ++ ServerClose :: b
                     /\ ~ In ServerClose a /\ ~ In ServerClose b)
  /\ (~ In ServerClose evs -> server_status s' = server_status s).
Proof.
  induction evs as [|e r IH]; intros s s' Hq Hno Hrun; cbn [run] in Hrun.
  - injection Hrun as <-.
    split; [exact Hq|]. split; [intros []|].
    split; [intros [] | reflexivity].
  - destruct (step e s) as [s1|] eqn:E; [|discriminate].
    assert (Hno1 : no_open_request r)
      by (intros m Hin; apply (Hno m); now right).
    destruct (quiet_step e s s1 Hq E) as (Hq1 & Hnc & Hsc & Hother).
    { intros m ->. apply (Hno m). now left. }
    assert (Hdec : e = ServerClose \/ e <> ServerClose)
      by (destruct e; (now left) || (right; discriminate)).
    destruct Hdec as [-> | Hne].
    + destruct (Hsc eq_refl) as [_ Hs1].
      destruct (closed_run r s1 s' Hq1 Hs1 Hno1 Hrun) as (Hq' & Hs' & Hn1 & Hn2).
      split; [exact Hq'|]. split; [intros [H | H]; [discriminate | auto]|].
      split.
      * intros _. split; [exact Hs'|]. exists [], r. auto.
      * intros Hn. exfalso. apply Hn. now left.
    + destruct (IH s1 s' Hq1 Hno1 Hrun) as (Hq' & Hn2 & Hin & Hout).
      split; [exact Hq'|]. split; [intros [H | H]; [congruence | auto]|].
      split.
      * intros [H | H]; [congruence|].
        destruct (Hin H) as (Hs' & a & b & -> & Ha & Hb).
        split; [exact Hs'|]. exists (e :: a), b. repeat split; auto.
        intros [H1 | H1]; [congruence | auto].
      * intros Hn. rewrite <- (Hother Hne). apply Hout.
        intro H. apply Hn. now right.
Qed.

(** The ['close'] of the listener, whenever it is handled. *)
Lemma step_ServerClose (s s' : State) :
  step ServerClose s = Some s' ->
  server_status s' = closed /\ listeners s' = listeners s
  /\ last_reply s' = Some "Server Successfully closed"%string
  /\ close_callbacks s' = [].
Proof.
  intro H. pose proof (step_control _ _ _ H) as (_ & Hc & Hctl).
  unfold control in Hctl. injection Hctl as E1 _ _ E4.
  cbn [step] in H. destruct (_ && _); [|discriminate]. injection H as <-.
  split; [exact E1|]. split; [|split; [|exact E4]].
  - rewrite listeners_forEach; reflexivity.
  - now apply last_reply_close_callbacks.
Qed.

End ClosingToClosed.

(** X7.  Close-server on a listening server with at least one connection:
    the status becomes CLOSING at once, with the three replies of the
    attempt, and no connection is dropped.  Until the ['close'] of the
    listener is handled, the status stays CLOSING whatever is handled and
    no connection is accepted.  The ['close'] of the listener, whenever it
    is handled, also while connections are still registered, sets CLOSED,
    replies that the server is closed, and leaves the registry as it is. *)
Theorem close_with_connections (s : State) (m : Message) :
  server_status s = listening ->
  listeners s <> [] ->
  settled s ->
  isAuthenticated (msg_user m) s = true ->
  exists s1,
    step (Hears closeServer m) s = Some s1
    /\ server_status s1 = closing
    /\ listeners s1 = listeners s
    /\ new_replies s s1
       = ["Attempting to Close Server";
          "Server will remain open until all listeners disconnect";
          "Hint: telling me to 'end-all' should end it now"]%string
    /\ forall evs s2,
         ~ In ServerClose evs -> run evs s1 = Some s2 ->
         server_status s2 = closing
         /\ ~ In Connection evs
         /\ step Connection s2 = None
         /\ (forall s3,
               step ServerClose s2 = Some s3 ->
               server_status s3 = closed
               /\ listeners s3 = listeners s2
               /\ last_reply s3 = Some "Server Successfully closed"%string).
Proof.
  intros Hs Hl Hset Ha.
  assert (E : hears closeServer m s
              = server_close m
                  (reply m "Hint: telling me to 'end-all' should end it now"
                     (reply m "Server will remain open until all listeners disconnect"
                        (reply m "Attempting to Close Server"
                           (set_server_status closing s))))).
  { cbn [hears]. unfold authenticatedTask. rewrite Ha.
    now apply closeServer_with_connections. }
  exists (hears closeServer m s).
  assert (Hcd : closing_down (hears closeServer m s)).
  { rewrite E. unfold closing_down. cbn. repeat split.
    - apply Hset. now left.
    - now destruct (close_callbacks s). }
  split; [reflexivity|]. split; [apply Hcd|].
  split; [now rewrite E|]. split.
  - apply (new_replies_app s _
             [(m, "Attempting to Close Server"%string);
              (m, "Server will remain open until all listeners disconnect"%string);
              (m, "Hint: telling me to 'end-all' should end it now"%string)]).
    rewrite E. cbn. now rewrite <- !app_assoc.
  - intros evs s2 Hn Hrun.
    destruct (closing_down_run evs _ s2 Hcd Hn Hrun)
      as [(Hs2 & Ha2 & Hl2 & Hc2) Hnc].
    split; [exact Hs2|]. split; [exact Hnc|].
    split; [cbn [step]; now rewrite Ha2|].
    intros s3 H3. destruct (step_ServerClose s2 s3 H3) as (H1 & H2 & H4 & _).
    auto.
Qed.

Lemma close_with_connections_witness :
  server_status three_clients = listening
  /\ listeners three_clients <> []
  /\ settled three_clients
  /\ isAuthenticated (msg_user boss) three_clients = true
  /\ exists s1,
       step (Hears closeServer boss) three_clients = Some s1
       /\ server_status s1 = closing
       /\ listeners s1 = listeners three_clients
       /\ new_replies three_clients s1
          = ["Attempting to Close Server";
             "Server will remain open until all listeners disconnect";
             "Hint: telling me to 'end-all' should end it now"]%string
       /\ forall evs s2,
            ~ In ServerClose evs -> run evs s1 = Some s2 ->
            server_status s2 = closing
            /\ ~ In Connection evs
            /\ step Connection s2 = None
            /\ (forall s3,
                  step ServerClose s2 = Some s3 ->
                  server_status s3 = closed
                  /\ listeners s3 = listeners s2
                  /\ last_reply s3 = Some "Server Successfully closed"%string).
Proof.
  split; [evaluate|]. split; [vm_compute; discriminate|].
  split; [intros _; evaluate|]. split; [evaluate|].
  apply (close_with_connections three_clients boss);
    [evaluate | vm_compute; discriminate | intros _; evaluate | evaluate].
Defined.

Example closed_with_a_connection_registered :
  option_map (fun s => (server_status s, keys (listeners s), last_reply s))
    (run [Hears endAll boss; SocketClose "net#1"; SocketClose "net#2";
          ServerClose] closing_state)
  = Some (closed, ["net#0"%string],
          Some "Server Successfully closed"%string).
Proof. evaluate. Qed.

(** X8.  After close-server on a listening server with connections open,
    and as long as no open-server is handled: whatever else is handled
    (end-all for one), and in whatever order the ['close'] of the
    connections and the ['close'] of the listener arrive, the listener
    before the last connection or after it, no connection is accepted;
    and once the ['close'] of the listener and of every connection have
    been handled, the registry is empty, the status is CLOSED, nothing is
    waiting on the listener, and the ['close'] of the listener was handled
    exactly once. *)
Theorem close_then_disconnects (s : State) (m : Message)
    (evs : list Event) (s' : State) :
  server_status s = listening ->
  listeners s <> [] ->
  settled s ->
  isAuthenticated (msg_user m) s = true ->
  run (Hears closeServer m :: evs) s = Some s' ->
  no_open_request evs ->
  In ServerClose evs ->
  (forall name, In name (keys (listeners s)) -> In (SocketClose name) evs) ->
  server_status s' = closed
  /\ listeners s' = []
  /\ accepting s' = false
  /\ close_callbacks s' = [] /\ listen_callbacks s' = []
  /\ ~ In Connection evs
  /\ exists a b, evs = a ++ ServerClose :: b
                 /\ ~ In ServerClose a /\ ~ In ServerClose b.
Proof.
  intros Hs Hl Hset Ha Hrun Hno Hsc Hall.
  cbn [run step] in Hrun.
  assert (E : hears closeServer m s
              = server_close m
                  (reply m "Hint: telling me to 'end-all' should end it now"
                     (reply m "Server will remain open until all listeners disconnect"
                        (reply m "Attempting to Close Server"
                           (set_server_status closing s))))).
  { cbn [hears]. unfold authenticatedTask. rewrite Ha.
    now apply closeServer_with_connections. }
  assert (Hq : quiet (hears closeServer m s)).
  { rewrite E. unfold quiet. cbn. repeat split.
    - apply Hset. now left.
    - left. split; [reflexivity | now destruct (close_callbacks s)]. }
  assert (Hk : keys (listeners (hears closeServer m s)) = keys (listeners s))
    by apply keys_hears.
  destruct (quiet_run evs _ s' Hq Hno Hrun) as (Hq' & Hnc & Hin & _).
  destruct (Hin Hsc) as (Hs' & Hsplit).
  destruct Hq' as (Ha' & Hl' & [[Hc _] | [_ Hcb]]); [congruence|].
  split; [exact Hs'|]. split.
  { apply (run_all_closed evs _ s' Hrun Hnc). now rewrite Hk. }
  repeat split; assumption.
Qed.

Lemma close_then_disconnects_witness :
  server_status three_clients = listening
  /\ listeners three_clients <> []
  /\ settled three_clients
  /\ isAuthenticated (msg_user boss) three_clients = true
  /\ run (Hears closeServer boss :: listener_closes_first) three_clients
     = Some (state_of (run listener_closes_first closing_state))
  /\ no_open_request listener_closes_first
  /\ In ServerClose listener_closes_first
  /\ (forall name, In name (keys (listeners three_clients)) ->
                   In (SocketClose name) listener_closes_first)
  /\ server_status (state_of (run listener_closes_first closing_state)) = closed
  /\ listeners (state_of (run listener_closes_first closing_state)) = []
  /\ accepting (state_of (run listener_closes_first closing_state)) = false
  /\ close_callbacks (state_of (run listener_closes_first closing_state)) = []
  /\ listen_callbacks (state_of (run listener_closes_first closing_state)) = []
  /\ ~ In Connection listener_closes_first
  /\ exists a b, listener_closes_first = a ++ ServerClose :: b
                 /\ ~ In ServerClose a /\ ~ In ServerClose b.
Proof.
  assert (Hno : no_open_request listener_closes_first).
  { intros m' H. cbn in H. intuition discriminate. }
  assert (Hsc : In ServerClose listener_closes_first) by (cbn; tauto).
  assert (Hall : forall name, In name (keys (listeners three_clients)) ->
                              In (SocketClose name) listener_closes_first).
  { intros name H. vm_compute in H.
    destruct H as [<- | [<- | [<- | []]]]; cbn; tauto. }
  split; [evaluate|]. split; [vm_compute; discriminate|].
  split; [intros _; evaluate|]. split; [evaluate|]. split; [evaluate|].
  split; [exact Hno|]. split; [exact Hsc|]. split; [exact Hall|].
  apply (close_then_disconnects three_clients boss listener_closes_first);
    [evaluate | vm_compute; discriminate | intros _; evaluate | evaluate
    | evaluate | exact Hno | exact Hsc | exact Hall].
Defined.

Example close_then_disconnects_both_orders :
  option_map (fun s => (server_status s, keys (listeners s)))
    (run (Hears closeServer boss :: listener_closes_first) three_clients)
  = Some (closed, [])
  /\ option_map (fun s => (server_status s, keys (listeners s)))
       (run (Hears closeServer boss :: listener_closes_last) three_clients)
     = Some (closed, [])
  /\ run (Hears closeServer boss :: listener_closes_last ++ [ServerClose])
       three_clients = None.
Proof. split; [evaluate | split; evaluate]. Qed.
